(** * excel_processor.py: record store and sampler

    A shallow embedding of [ExcelProcessor] (src/excel_processor.py) and the
    properties of its record store ([load_excel], [get_total_records]) and of
    its sampler ([get_random_records]).

    Python objects that the program shares by reference (the list held in
    [self.data_array], the row dictionaries it contains, the lists handed
    back to callers) live in an explicit object store, so that aliasing
    between the processor and its callers is visible. *)

From Stdlib Require Import Floats.
From stdpp Require Import gmap strings list fin_maps pretty sorting.

(** ** Cell values *)

(** The values a cell of a row can hold when it is read with [row[column]]:
    Python scalars, the missing markers of pandas, numpy scalars (the only
    ones with an [item] method), and the date and time objects of date
    cells ([pandas.Timestamp], [datetime.datetime], [datetime.time]), which
    are not missing values and have no [item]. Floats are IEEE doubles. *)
Inductive value : Type :=
  | PyNone
  | PdNaT
  | PdNA
  | PyBool (b : bool)
  | PyInt (z : Z)
  | PyFloat (f : float)
  | PyStr (s : string)
  | NpBool (b : bool)
  | NpInt (z : Z)
  | NpFloat (f : float)
  | PyDatetime (iso : string).

Module pd.

(** [pd.isna] on a scalar: None, NaT, NA and every NaN. *)
Definition isna (v : value) : bool :=
  match v with
  | PyNone | PdNaT | PdNA => true
  | PyFloat f | NpFloat f => PrimFloat.is_nan f
  | _ => false
  end.

End pd.

(** [value.item] of the values that have the attribute: a numpy scalar
    gives the Python scalar of the same kind. [None] stands for
    [hasattr(value, 'item')] being false. *)
Definition item (v : value) : option value :=
  match v with
  | NpBool b => Some (PyBool b)
  | NpInt z => Some (PyInt z)
  | NpFloat f => Some (PyFloat f)
  | _ => None
  end.

(** Lines 43 to 48 of the source, the treatment of one cell. *)
Definition normalize (v : value) : value :=
  if pd.isna v then PyNone
  else match item v with
       | Some native => native
       | None => v
       end.

(** ** Frames *)

(** Column labels: header cells are text or numbers. *)
Inductive label : Type :=
  | LStr (s : string)
  | LInt (z : Z).

(** Python's [str] on a column label. *)
Definition str (column : label) : string :=
  match column with
  | LStr s => s
  | LInt z => pretty z
  end.

(** A frame: its column labels and its rows, each with its index label.
    The labels of a frame that was read from a file are pairwise different,
    so [row[column]] is the cell at the position of [column]; a position the
    stored row does not reach is a missing cell. *)
Record DataFrame : Type := {
  columns : list label;
  rows : list (Z * list value)
}.

Definition cell (row : list value) (i : nat) : value :=
  default (PyFloat PrimFloat.nan) (row !! i).

(** The cells of a row, one per column of the frame. *)
Definition cells (cols : list label) (row : list value) : list value :=
  cell row <$> seq 0 (length cols).

(** A row has a cell that is not missing. *)
Definition any_notna (cols : list label) (row : list value) : bool :=
  existsb (λ v, negb (pd.isna v)) (cells cols row).

(** [df.dropna(how='all')]: the rows with at least one cell that is not
    missing are kept, with their index labels. *)
Definition dropna (df : DataFrame) : DataFrame :=
  {| columns := columns df;
     rows := filter (λ r, any_notna (columns df) r.2) (rows df) |}.

(** What [pd.read_excel] does with a path and a sheet: it hands back a grid
    under the default index 0, 1, 2, ..., or raises. *)
Inductive read_result : Type :=
  | Parsed (cols : list label) (grid : list (list value))
  | FileNotFoundError
  | OtherException (e : string).

Definition frame (cols : list label) (grid : list (list value)) : DataFrame :=
  {| columns := cols; rows := imap (λ i row, (Z.of_nat i, row)) grid |}.

(** ** Row objects *)

(** The dictionary built for a row: [{'id': ..., 'data': {...}}]. *)
Record row_object : Type := {
  id : Z;
  data : gmap string value
}.

(** The loop over [df.columns] of lines 40 to 50, from column position [i]
    on. *)
Fixpoint fill_data (row : list value) (i : nat) (cols : list label)
    (d : gmap string value) : gmap string value :=
  match cols with
  | [] => d
  | column :: rest =>
      fill_data row (S i) rest (<[str column := normalize (cell row i)]> d)
  end.

Definition make_row_object (cols : list label) (index : Z) (row : list value)
    : row_object :=
  {| id := (index + 1)%Z; data := fill_data row 0 cols ∅ |}.

(** ** The object store and the state of a run *)

Definition loc := positive.

(** What the program prints, one constructor per [print] of the class. *)
Inductive line : Type :=
  | LoadedOk (count : nat)
  | ColumnsFound (cols : list label)
  | ErrorNotFound (file_path : string)
  | ErrorLoad (e : string)
  | WarnNoData
  | WarnNotPositive
  | WarnClamp (n : Z) (available : nat)
  | ReturningAll
  | Selected (count : nat).

(** The lines that start with the warning sign and [Advertencia]. *)
Definition is_warning (l : line) : bool :=
  match l with
  | WarnNoData | WarnNotPositive | WarnClamp _ _ => true
  | _ => false
  end.

(** The exceptions the modelled code can raise. *)
Inductive exn : Type :=
  | ValueError
  | IndexError.

Inductive result (A : Type) : Type :=
  | Return (a : A)
  | Raise (e : exn).
Arguments Return {A} a.
Arguments Raise {A} e.

Module random.

(** The state of the generator: the raw draws it is going to produce and
    how many were consumed. A generator comes round: every number below
    [m] is drawn again within [period m] draws, from wherever it stands
    (the Mersenne Twister does, within its period). *)
Record RandomState : Type := {
  tape : nat → nat;
  pos : nat;
  period : nat → nat;
  recurs : ∀ m p v, v < m →
           ∃ q, p ≤ q < p + period m ∧ tape q `mod` m = v
}.

(** [_randbelow(m)]: a number below [m], and the generator moves on. *)
Definition randbelow (m : nat) (g : RandomState) : nat * RandomState :=
  (tape g (pos g) `mod` m,
   {| tape := tape g; pos := S (pos g); period := period g;
      recurs := recurs g |}).

(** The selection loop of [random.sample] on a pool: [k] draws are left
    to do, the items not selected so far are the first [m] of [pool]. *)
Fixpoint sample_loop {A : Type} (k m : nat) (pool selected : list A)
    (g : RandomState) : result (list A * RandomState) :=
  match k with
  | O => Return (selected, g)
  | S k' =>
      let '(j, g') := randbelow m g in
      match pool !! j, pool !! (m - 1) with
      | Some x, Some y =>
          sample_loop k' (m - 1) (<[j := y]> pool) (selected ++ [x]) g'
      | _, _ => Raise IndexError
      end
  end.

(** [setsize] of [random.sample]: 21, and for [k > 5] the power
    [4 ** ceil(log(k * 3, 4))] on top, the least power of 4 that is at
    least [3 * k]. *)
Definition setsize (k : Z) : Z :=
  if bool_decide (5 < k)%Z
  then (21 + 4 ^ ((Z.log2_up (k * 3) + 1) `div` 2))%Z
  else 21%Z.

(** [j = randbelow(n)] followed by [while j in selected: j = randbelow(n)].
    [redraws] bounds the turns of the loop; a generator that comes round
    leaves the loop within [period n] draws while a position is free. *)
Fixpoint draw_new (redraws n : nat) (selected : gset nat) (g : RandomState)
    : nat * RandomState :=
  let '(j, g') := randbelow n g in
  match redraws with
  | O => (j, g')
  | S redraws' =>
      if decide (j ∈ selected) then draw_new redraws' n selected g'
      else (j, g')
  end.

(** The selection loop of [random.sample] with a set of the positions
    selected so far: [k] items are left to select. *)
Fixpoint sample_set_loop {A : Type} (k n : nat) (population : list A)
    (selected : gset nat) (out : list A) (g : RandomState)
    : result (list A * RandomState) :=
  match k with
  | O => Return (out, g)
  | S k' =>
      let '(j, g') := draw_new (period g n) n selected g in
      match population !! j with
      | Some x =>
          sample_set_loop k' n population ({[j]} ∪ selected) (out ++ [x]) g'
      | None => Raise IndexError
      end
  end.

(** [random.sample(population, k)] of the standard library: a [ValueError]
    unless [0 <= k <= len(population)]; then the pool algorithm when the
    population is no longer than [setsize], and the algorithm with a set of
    selected positions when it is. *)
Definition sample {A : Type} (population : list A) (k : Z)
    (g : RandomState) : result (list A * RandomState) :=
  if bool_decide (0 ≤ k ≤ Z.of_nat (length population))%Z
  then
    if bool_decide (Z.of_nat (length population) ≤ setsize k)%Z
    then sample_loop (Z.to_nat k) (length population) population [] g
    else sample_set_loop (Z.to_nat k) (length population) population ∅ [] g
  else Raise ValueError.

End random.

(** The state of a run: the attribute [self.data_array] (a reference to a
    list object), the list objects and the row objects allocated so far,
    the console, and the random generator. *)
Record state : Type := {
  data_array : loc;
  lists : gmap loc (list loc);
  dicts : gmap loc row_object;
  stdout : list line;
  rng : random.RandomState
}.

Definition print (l : line) (s : state) : state :=
  {| data_array := data_array s; lists := lists s; dicts := dicts s;
     stdout := stdout s ++ [l]; rng := rng s |}.

Definition set_rng (g : random.RandomState) (s : state) : state :=
  {| data_array := data_array s; lists := lists s; dicts := dicts s;
     stdout := stdout s; rng := g |}.

(** [self.data_array = l] *)
Definition set_data_array (l : loc) (s : state) : state :=
  {| data_array := l; lists := lists s; dicts := dicts s;
     stdout := stdout s; rng := rng s |}.

(** A new list object holding [items]. *)
Definition new_list (items : list loc) (s : state) : loc * state :=
  let l := fresh (dom (lists s)) in
  (l, {| data_array := data_array s; lists := <[l := items]> (lists s);
         dicts := dicts s; stdout := stdout s; rng := rng s |}).

(** A new row object. *)
Definition new_dict (r : row_object) (s : state) : loc * state :=
  let o := fresh (dom (dicts s)) in
  (o, {| data_array := data_array s; lists := lists s;
         dicts := <[o := r]> (dicts s); stdout := stdout s; rng := rng s |}).

(** [l.append(o)] *)
Definition list_append (l o : loc) (s : state) : state :=
  {| data_array := data_array s;
     lists := alter (λ items, items ++ [o]) l (lists s);
     dicts := dicts s; stdout := stdout s; rng := rng s |}.

(** The items of the list [self.data_array] refers to. *)
Definition items (s : state) : list loc := lists s !!! data_array s.

(** The record collection as values: the row objects of [self.data_array],
    in order. *)
Definition records (s : state) : option (list row_object) :=
  mapM (λ o, dicts s !! o) (items s).

(** ** The class ExcelProcessor *)

(** [__init__]: a processor with a new empty list, in an empty store. *)
Definition init (g : random.RandomState) : state :=
  (new_list [] {| data_array := 1%positive; lists := ∅; dicts := ∅;
                  stdout := []; rng := g |}).2.

(** [if sheet_name:] of line 20: the sheet is passed on to the reader when
    it is given and not the empty string. *)
Definition selected_sheet (sheet_name : option string) : option string :=
  match sheet_name with
  | Some name => if bool_decide (name = EmptyString) then None else Some name
  | None => None
  end.

Section ExcelProcessor.

(** The reader and the files it sees: outside the program. *)
Variable read_excel : string → option string → read_result.

(** The body of the loop over [df.iterrows()], lines 33 to 52. *)
Definition load_row (cols : list label) (s : state) (r : Z * list value)
    : state :=
  let '(o, s') := new_dict (make_row_object cols r.1 r.2) s in
  list_append (data_array s') o s'.

Definition load_excel (file_path : string) (sheet_name : option string)
    (s : state) : state :=
  match read_excel file_path (selected_sheet sheet_name) with
  | Parsed cols grid =>
      let df := dropna (frame cols grid) in
      let '(arr, s1) := new_list [] s in
      let s2 := set_data_array arr s1 in
      let s3 := foldl (load_row (columns df)) s2 (rows df) in
      print (ColumnsFound (columns df))
            (print (LoadedOk (length (items s3))) s3)
  | FileNotFoundError => print (ErrorNotFound file_path) s
  | OtherException e => print (ErrorLoad e) s
  end.

End ExcelProcessor.

Definition get_total_records (s : state) : Z := Z.of_nat (length (items s)).

Definition get_random_records (n : Z) (s : state) : result (loc * state) :=
  if bool_decide (items s = []) then
    Return (new_list [] (print WarnNoData s))
  else if bool_decide (n ≤ 0)%Z then
    Return (new_list [] (print WarnNotPositive s))
  else if bool_decide (Z.of_nat (length (items s)) ≤ n)%Z then
    Return (new_list (items s)
              (print ReturningAll (print (WarnClamp n (length (items s))) s)))
  else
    match random.sample (items s) n (rng s) with
    | Raise e => Raise e
    | Return (random_records, g) =>
        let '(l, s') := new_list random_records (set_rng g s) in
        Return (l, print (Selected (length random_records)) s')
    end.

(** ** What a caller can do with a returned list *)

(** A change in place of the list object [ret] (append, pop, del, sort,
    assignment to an item or a slice): the object holds [items'] after it. *)
Definition list_store (ret : loc) (items' : list loc) (s : state) : state :=
  {| data_array := data_array s; lists := <[ret := items']> (lists s);
     dicts := dicts s; stdout := stdout s; rng := rng s |}.

(** A change in place of the record at position [i] of the list [ret]
    ([ret[i]['id'] = ...], [ret[i]['data'][k] = ...]): the row object holds
    [r'] after it. *)
Definition record_store (ret : loc) (i : nat) (r' : row_object) (s : state)
    : state :=
  match lists s !! ret ≫= (λ l, l !! i) with
  | Some o =>
      {| data_array := data_array s; lists := lists s;
         dicts := <[o := r']> (dicts s); stdout := stdout s; rng := rng s |}
  | None => s
  end.

(** The mutations of a returned sequence: of the sequence itself, or of a
    record it contains. *)
Inductive mutation : Type :=
  | SetItems (items' : list loc)
  | SetRecord (i : nat) (r' : row_object).

Definition mutate (ret : loc) (m : mutation) (s : state) : state :=
  match m with
  | SetItems items' => list_store ret items' s
  | SetRecord i r' => record_store ret i r' s
  end.

(** A state is well formed when [self.data_array] refers to an allocated
    list whose items are allocated row objects, each of them once. *)
Definition wf (s : state) : Prop :=
  is_Some (lists s !! data_array s)
  ∧ is_Some (records s)
  ∧ NoDup (items s).

(** The row objects a successful load stores for a grid: one per row that
    [dropna] keeps, in order. *)
Definition row_objects (cols : list label) (grid : list (list value))
    : list row_object :=
  (λ r, make_row_object cols r.1 r.2) <$> rows (dropna (frame cols grid)).

(** The rows of a grid that are not entirely empty. *)
Definition non_empty_rows (cols : list label) (grid : list (list value))
    : list (list value) :=
  filter (λ row, any_notna cols row) grid.

(** The ids of the record collection, in stored order. *)
Definition record_ids (s : state) : option (list Z) :=
  (λ rs : list row_object, id <$> rs) <$> records s.

(** ** A small run

    The grid of a sheet with the columns name and age and three rows, the
    second of them entirely empty; a reader that finds this sheet under one
    path and no file under any other. *)

Definition demo_columns : list label := [LStr "name"; LStr "age"].

Definition demo_grid : list (list value) :=
  [ [PyStr "Ana"; PyFloat 30%float];
    [PyFloat PrimFloat.nan; PyFloat PrimFloat.nan];
    [PyStr "Bo"; PyFloat PrimFloat.nan] ].

Definition demo_reader (file_path : string) (sheet : option string)
    : read_result :=
  if bool_decide (file_path = "datos.xlsx")
  then Parsed demo_columns demo_grid
  else FileNotFoundError.

(** The generator that draws 0, 1, 2, ...: below [m] it comes round
    every [m] draws. *)
Lemma counting_recurs (m p v : nat) :
  v < m → ∃ q, p ≤ q < p + m ∧ q `mod` m = v.
Proof.
  intros Hv.
  pose proof (Nat.mod_upper_bound p m ltac:(lia)) as Hr.
  pose proof (Nat.div_mod_eq p m) as Hp.
  destruct (decide (p `mod` m ≤ v)) as [Hle|Hgt].
  - exists (p + (v - p `mod` m)). split; [lia|].
    replace (p + (v - p `mod` m)) with (v + p `div` m * m) by lia.
    by rewrite Nat.Div0.mod_add, Nat.mod_small.
  - exists (p + (m - p `mod` m + v)). split; [lia|].
    replace (p + (m - p `mod` m + v)) with (v + (p `div` m + 1) * m) by lia.
    by rewrite Nat.Div0.mod_add, Nat.mod_small.
Qed.

Definition demo_generator : random.RandomState :=
  {| random.tape := λ i, i; random.pos := 0; random.period := λ m, m;
     random.recurs := counting_recurs |}.

(** A generator that draws the numbers of a list first and counts from 0
    after them. *)
Lemma replay_recurs (draws : list nat) (m p v : nat) :
  v < m →
  ∃ q, p ≤ q < p + (length draws + m)
       ∧ default (q - length draws) (draws !! q) `mod` m = v.
Proof.
  intros Hv.
  destruct (counting_recurs m (p `max` length draws - length draws) v Hv)
    as (q & Hq & Hmod).
  exists (q + length draws). split; [lia|].
  rewrite lookup_ge_None_2 by lia. cbn.
  by replace (q + length draws - length draws) with q by lia.
Qed.

Definition replay (draws : list nat) : random.RandomState :=
  {| random.tape := λ i, default (i - length draws) (draws !! i);
     random.pos := 0;
     random.period := λ m, length draws + m;
     random.recurs := replay_recurs draws |}.

(** A sheet with one column and 22 rows, none of them empty. *)
Definition long_grid : list (list value) :=
  (λ i : nat, [PyInt (Z.of_nat i)]) <$> seq 0 22.

Definition long_state (g : random.RandomState) : state :=
  load_excel (λ _ _, Parsed [LStr "n"] long_grid) "largo.xlsx" None (init g).

Definition demo_state : state :=
  load_excel demo_reader "datos.xlsx" None (init demo_generator).

(** ** Showing records *)

(** What [display_sample_data] prints, one constructor per [print]: the
    notice of line 99, the header of line 102 with the number it shows, the
    rule of line 103, the id and the payload of a record, the rule between
    two records. *)
Inductive shown : Type :=
  | NoDataToShow
  | SampleHeader (count : Z)
  | Rule
  | ShowId (record_id : Z)
  | ShowData (record_data : gmap string value)
  | Separator.

(** How a call ends: it returns, or an exception leaves it. *)
Inductive ending : Type :=
  | Returned
  | Raised.

(** The values of the native kinds: None, booleans, integers, strings and
    floats that are not NaN. *)
Definition native (v : value) : bool :=
  match v with
  | PyNone | PyBool _ | PyInt _ | PyStr _ => true
  | PyFloat f => negb (PrimFloat.is_nan f)
  | _ => false
  end.

(** The values lines 44 to 50 can leave in a payload: None, or a value
    that is not missing and is no numpy scalar, so a value of a native kind
    or a date or time object. *)
Definition plain (v : value) : bool :=
  match v with
  | PyNone | PyBool _ | PyInt _ | PyStr _ | PyDatetime _ => true
  | PyFloat f => negb (PrimFloat.is_nan f)
  | _ => false
  end.

Definition is_datetime (v : value) : bool :=
  match v with
  | PyDatetime _ => true
  | _ => false
  end.

(** A grid with no date cell, and a reader that hands back such grids
    only. *)
Definition dateless_grid (grid : list (list value)) : Prop :=
  Forall (Forall (λ v, is_datetime v = false)) grid.

Definition dateless (read_excel : string → option string → read_result)
    : Prop :=
  ∀ file_path sheet cols grid,
    read_excel file_path sheet = Parsed cols grid → dateless_grid grid.

Module json.

(** The values [json.dumps] encodes: None, booleans, integers, strings and
    floats (a numpy float is a Python float); for any other object it
    raises a [TypeError]. *)
Definition encodable (v : value) : bool :=
  match v with
  | PyNone | PyBool _ | PyInt _ | PyFloat _ | PyStr _ | NpFloat _ => true
  | PdNaT | PdNA | NpBool _ | NpInt _ | PyDatetime _ => false
  end.

(** [json.dumps] of a payload returns. *)
Definition dumps_ok (d : gmap string value) : bool :=
  bool_decide (map_Forall (λ _ v, encodable v = true) d).

End json.

(** The slice [l[:stop]]: the first [stop] items, and all but the last
    [-stop] when [stop] is negative. *)
Definition slice_to {A : Type} (l : list A) (stop : Z) : list A :=
  if bool_decide (0 ≤ stop)%Z then take (Z.to_nat stop) l
  else take (Z.to_nat (Z.of_nat (length l) + stop)) l.

(** The loop of lines 105 to 110 from position [i] on; [bound] is
    [min(num_samples, len(self.data_array))]. The id of a record is printed
    before its payload is encoded. *)
Fixpoint display_loop (bound : Z) (i : nat) (objs : list loc) (s : state)
    : list shown * ending :=
  match objs with
  | [] => ([], Returned)
  | o :: rest =>
      match dicts s !! o with
      | None => ([], Raised)
      | Some record =>
          if json.dumps_ok (data record) then
            let rule :=
              if bool_decide (Z.of_nat i < bound - 1)%Z then [Separator]
              else [] in
            let '(out, e) := display_loop bound (S i) rest s in
            (ShowId (id record) :: ShowData (data record) :: rule ++ out, e)
          else ([ShowId (id record)], Raised)
      end
  end.

(** [display_sample_data]: what it prints and how it ends. It changes
    nothing of the state. *)
Definition display_sample_data (num_samples : Z) (s : state)
    : list shown * ending :=
  if bool_decide (items s = []) then ([NoDataToShow], Returned)
  else
    let bound := Z.min num_samples (Z.of_nat (length (items s))) in
    let '(out, e) :=
      display_loop bound 0 (slice_to (items s) num_samples) s in
    (SampleHeader bound :: Rule :: out, e).

(** The lines of some records with a rule between two of them. *)
Fixpoint shown_records (rs : list row_object) : list shown :=
  match rs with
  | [] => []
  | r :: rest =>
      ShowId (id r) :: ShowData (data r)
        :: match rest with
           | [] => []
           | _ :: _ => Separator :: shown_records rest
           end
  end.

(** The lines of some records with no rule between them. *)
Definition shown_plain (rs : list row_object) : list shown :=
  rs ≫= λ r, [ShowId (id r); ShowData (data r)].

(** ** Runs *)

(** A call of a method that works on the collection. *)
Inductive call : Type :=
  | CallLoadExcel (file_path : string) (sheet_name : option string)
  | CallGetRandomRecords (n : Z).

Definition step (read_excel : string → option string → read_result)
    (s : state) (c : call) : state :=
  match c with
  | CallLoadExcel file_path sheet_name =>
      load_excel read_excel file_path sheet_name s
  | CallGetRandomRecords n =>
      match get_random_records n s with
      | Return (_, s') => s'
      | Raise _ => s
      end
  end.

(** The state after the calls, made one after the other on a new
    processor. *)
Definition run (read_excel : string → option string → read_result)
    (g : random.RandomState) (calls : list call) : state :=
  foldl (step read_excel) (init g) calls.

(** What holds of the collection in every state the calls can reach: the
    state is well formed, the ids go up strictly and are at least 1, the
    payloads have one set of keys, and no value of a payload is a numpy
    scalar or a missing marker other than None. *)
Definition sound (s : state) : Prop :=
  wf s
  ∧ ∃ rs,
      records s = Some rs
      ∧ StronglySorted Z.lt (id <$> rs)
      ∧ Forall (λ r, 1 ≤ id r)%Z rs
      ∧ (∃ keys : gset string, Forall (λ r, dom (data r) = keys) rs)
      ∧ Forall (λ r, map_Forall (λ _ v, plain v = true) (data r)) rs.

(** [json.dumps] encodes the payload of every record of the collection. *)
Definition printable (s : state) : Prop :=
  ∃ rs,
    records s = Some rs
    ∧ Forall (λ r, json.dumps_ok (data r) = true) rs.

(** * Properties *)

(** ** The object store *)

Lemma mapM_snoc_fresh (d : gmap loc row_object) (l : list loc)
    (rs : list row_object) (o : loc) (r : row_object) :
  mapM (λ x, d !! x) l = Some rs →
  d !! o = None →
  mapM (λ x, <[o := r]> d !! x) (l ++ [o]) = Some (rs ++ [r]).
Proof.
  intros Hl Ho. apply mapM_Some. apply mapM_Some in Hl.
  apply Forall2_app.
  - eapply Forall2_impl; [exact Hl|]. intros x y Hx. cbn beta in *.
    rewrite lookup_insert_ne; [done|]. intros ->. congruence.
  - constructor; [|constructor]. apply lookup_insert_eq.
Qed.

Lemma fresh_list_None (m : gmap loc (list loc)) : m !! fresh (dom m) = None.
Proof. apply not_elem_of_dom, is_fresh. Qed.

Lemma fresh_dict_None (m : gmap loc row_object) : m !! fresh (dom m) = None.
Proof. apply not_elem_of_dom, is_fresh. Qed.

(** ** Loading *)

(** One turn of the loop appends the row object of the row, a new object. *)
Lemma load_row_spec cols s r its rs :
  lists s !! data_array s = Some its →
  mapM (λ o, dicts s !! o) its = Some rs →
  NoDup its →
  ∃ its',
    data_array (load_row cols s r) = data_array s ∧
    lists (load_row cols s r) !! data_array s = Some its' ∧
    mapM (λ o, dicts (load_row cols s r) !! o) its'
      = Some (rs ++ [make_row_object cols r.1 r.2]) ∧
    NoDup its' ∧
    stdout (load_row cols s r) = stdout s ∧
    rng (load_row cols s r) = rng s.
Proof.
  intros Hits Hrs Hnd. exists (its ++ [fresh (dom (dicts s))]).
  unfold load_row, new_dict, list_append; cbn.
  split; [done|]. split; [by rewrite lookup_alter_eq, Hits|].
  split; [apply mapM_snoc_fresh; [done|apply fresh_dict_None]|].
  split; [|done].
  apply NoDup_app. split; [done|]. split; [|apply NoDup_singleton].
  intros o Ho ->%list_elem_of_singleton.
  assert (Hall : Forall (is_Some ∘ (λ o, dicts s !! o)) its)
    by (apply mapM_is_Some; eauto).
  rewrite Forall_forall in Hall. specialize (Hall _ Ho). cbn in Hall.
  rewrite fresh_dict_None in Hall. by destruct Hall.
Qed.

(** The whole loop appends the row objects of the rows, in order. *)
Lemma load_rows_spec cols rws : ∀ s its rs,
  lists s !! data_array s = Some its →
  mapM (λ o, dicts s !! o) its = Some rs →
  NoDup its →
  ∃ its',
    data_array (foldl (load_row cols) s rws) = data_array s ∧
    lists (foldl (load_row cols) s rws) !! data_array s = Some its' ∧
    mapM (λ o, dicts (foldl (load_row cols) s rws) !! o) its'
      = Some (rs ++ ((λ r, make_row_object cols r.1 r.2) <$> rws)) ∧
    NoDup its' ∧
    stdout (foldl (load_row cols) s rws) = stdout s ∧
    rng (foldl (load_row cols) s rws) = rng s.
Proof.
  induction rws as [|r rws IH]; intros s its rs Hits Hrs Hnd.
  - exists its. rewrite app_nil_r. done.
  - destruct (load_row_spec cols s r its rs Hits Hrs Hnd)
      as (its1 & Hd & Hl & Hm & Hnd1 & Ho & Hg).
    rewrite <- Hd in Hl.
    destruct (IH _ _ _ Hl Hm Hnd1) as (its' & Hd' & Hl' & Hm' & Hnd' & Ho' & Hg').
    exists its'. cbn [foldl fmap list_fmap].
    rewrite Hd', Hd in *. rewrite <- app_assoc in Hm'.
    split; [done|]. split; [done|]. split; [done|]. split; [done|].
    split; congruence.
Qed.

(** ** Sampling *)

(** One draw: the selected item and the pool that is left make up the pool
    there was. *)
Lemma pool_step {A : Type} (pool : list A) (m j : nat) (x y : A) :
  j < m →
  pool !! j = Some x →
  pool !! (m - 1) = Some y →
  x :: take (m - 1) (<[j := y]> pool) ≡ₚ take m pool.
Proof.
  intros Hj Hx Hy.
  replace m with (S (m - 1)) at 2 by lia.
  rewrite (take_S_r pool (m - 1) y Hy).
  destruct (decide (j = m - 1)) as [->|Hne].
  - rewrite take_insert_ge by lia. simplify_eq.
    by rewrite Permutation_cons_append.
  - rewrite take_insert_lt by lia.
    assert (Hx' : take (m - 1) pool !! j = Some x).
    { rewrite lookup_take_lt by lia. done. }
    rewrite insert_take_drop by (eapply lookup_lt_Some; eauto).
    rewrite <- (take_drop_middle (take (m - 1) pool) j x Hx') at 3.
    rewrite <- !app_assoc. cbn [app].
    symmetry. rewrite <- Permutation_middle. apply Permutation_skip.
    apply Permutation_app_head. symmetry. apply Permutation_cons_append.
Qed.

(** The selection loop returns: it adds [k] items to the selection, taken
    from different places of the pool. *)
Lemma sample_loop_spec {A : Type} (k : nat) :
  ∀ (m : nat) (pool selected : list A) (g : random.RandomState),
    k ≤ m → m ≤ length pool →
    ∃ chosen g',
      random.sample_loop k m pool selected g = Return (selected ++ chosen, g')
      ∧ length chosen = k
      ∧ chosen ⊆+ take m pool.
Proof.
  induction k as [|k IH]; intros m pool selected g Hk Hm.
  - exists [], g. rewrite app_nil_r. split; [done|]. split; [done|].
    apply submseteq_nil_l.
  - cbn [random.sample_loop random.randbelow].
    set (j := random.tape g (random.pos g) `mod` m).
    assert (Hj : j < m) by (apply Nat.mod_upper_bound; lia).
    destruct (lookup_lt_is_Some_2 pool j) as [x Hx]; [lia|].
    destruct (lookup_lt_is_Some_2 pool (m - 1)) as [y Hy]; [lia|].
    rewrite Hx, Hy.
    destruct (IH (m - 1) (<[j := y]> pool) (selected ++ [x])
                (random.randbelow m g).2)
      as (chosen & g' & Hrun & Hlen & Hsub).
    { lia. }
    { rewrite length_insert. lia. }
    cbn [random.randbelow snd] in Hrun.
    exists (x :: chosen), g'. rewrite Hrun, <- app_assoc. cbn [app length].
    split; [done|]. split; [congruence|].
    rewrite <- (pool_step pool m j x y Hj Hx Hy).
    by apply submseteq_skip.
Qed.

(** While fewer than [n] positions are selected, one below [n] is free. *)
Lemma free_position (n : nat) (selected : gset nat) :
  size selected < n → ∃ v, v < n ∧ v ∉ selected.
Proof.
  intros Hsize.
  destruct (decide (Forall (λ v, v ∈ selected) (seq 0 n))) as [Hall|Hsome].
  - assert (Hsub : set_seq (C := gset nat) 0 n ⊆ selected).
    { intros v Hv%elem_of_set_seq. rewrite Forall_forall in Hall.
      apply Hall, elem_of_seq. lia. }
    apply subseteq_size in Hsub. rewrite size_set_seq in Hsub. lia.
  - apply not_Forall_Exists in Hsome; [|apply _].
    apply Exists_exists in Hsome as (v & Hv%elem_of_seq & Hfree).
    exists v. split; [lia|done].
Qed.

(** A draw that looks for a free position finds one when one comes up
    within the turns it has; the generator only moves on. *)
Lemma draw_new_spec (redraws n : nat) (selected : gset nat) :
  ∀ g : random.RandomState,
    (∃ q, random.pos g ≤ q ≤ random.pos g + redraws
          ∧ (random.tape g q `mod` n) ∉ selected) →
    ∃ q, random.pos g ≤ q ≤ random.pos g + redraws
         ∧ (random.draw_new redraws n selected g).1
           = (random.tape g q `mod` n)
         ∧ ((random.tape g q `mod` n) ∉ selected)
         ∧ random.tape (random.draw_new redraws n selected g).2
           = random.tape g
         ∧ random.period (random.draw_new redraws n selected g).2
           = random.period g
         ∧ random.pos (random.draw_new redraws n selected g).2 = S q.
Proof.
  induction redraws as [|redraws IH]; intros g (q & Hq & Hfree).
  - exists (random.pos g). replace q with (random.pos g) in Hfree by lia.
    cbn. repeat split; try done; lia.
  - cbn [random.draw_new random.randbelow].
    destruct (decide (random.tape g (random.pos g) `mod` n ∈ selected))
      as [Hin|Hout].
    + destruct (IH (random.randbelow n g).2) as (q' & Hq' & Hrest).
      { exists q. cbn. split; [|done].
        destruct (decide (q = random.pos g)) as [->|]; [done|lia]. }
      cbn in Hq'. exists q'. split; [lia|exact Hrest].
    + exists (random.pos g). cbn. repeat split; try done; lia.
Qed.

(** The items at positions that are all different are a selection of the
    list. *)
Lemma lookups_submseteq {A : Type} (d : A) (l : list A) (idxs : list nat) :
  NoDup idxs →
  Forall (λ i, i < length l) idxs →
  ((λ i, nth i l d) <$> idxs) ⊆+ l.
Proof.
  intros Hnd Hlt.
  assert (Hall : (λ i, nth i l d) <$> seq 0 (length l) = l).
  { apply list_eq. intros i. rewrite list_lookup_fmap.
    destruct (decide (i < length l)) as [Hi|Hi].
    - rewrite lookup_seq_lt by done. cbn.
      destruct (lookup_lt_is_Some_2 l i Hi) as [x Hx].
      rewrite Hx. f_equal. by apply nth_lookup_Some.
    - rewrite lookup_seq_ge by lia. by rewrite lookup_ge_None_2 by lia. }
  assert (Hsub : idxs ⊆+ seq 0 (length l)).
  { apply NoDup_submseteq; [done|].
    intros i Hi. rewrite Forall_forall in Hlt. apply elem_of_seq.
    specialize (Hlt i Hi). lia. }
  apply (fmap_submseteq (λ i, nth i l d)) in Hsub. by rewrite Hall in Hsub.
Qed.

(** The selection loop with a set returns: it adds to the selection the
    items at [k] new positions, all different. *)
Lemma sample_set_loop_spec {A : Type} (d : A) (population : list A)
    (k : nat) :
  ∀ (idxs : list nat) (out : list A) (g : random.RandomState),
    NoDup idxs →
    length idxs + k ≤ length population →
    ∃ idxs' g',
      random.sample_set_loop k (length population) population
        (list_to_set idxs) out g
      = Return (out ++ ((λ i, nth i population d) <$> idxs'), g')
      ∧ length idxs' = k
      ∧ NoDup (idxs ++ idxs')
      ∧ Forall (λ i, i < length population) idxs'
      ∧ random.tape g' = random.tape g
      ∧ random.period g' = random.period g
      ∧ random.pos g + k ≤ random.pos g'.
Proof.
  induction k as [|k IH]; intros idxs out g Hnd Hlen.
  - exists [], g. rewrite !app_nil_r. repeat split; [done|constructor|lia].
  - cbn [random.sample_set_loop].
    set (n := length population) in *.
    set (selected := list_to_set idxs : gset nat).
    assert (Hsize : size selected < n).
    { unfold selected. rewrite size_list_to_set by done. lia. }
    destruct (free_position n selected Hsize) as (v & Hv & Hfree).
    destruct (random.recurs g n (random.pos g) v Hv) as (q & Hq & Hmod).
    destruct (draw_new_spec (random.period g n) n selected g)
      as (q' & Hq' & Hj & Hnew & Htape & Hperiod & Hpos).
    { exists q. rewrite Hmod. split; [lia|done]. }
    destruct (random.draw_new (random.period g n) n selected g)
      as [j g1] eqn:Hdraw.
    cbn [fst snd] in Hj, Htape, Hperiod, Hpos.
    assert (Hjn : j < n).
    { rewrite Hj. apply Nat.mod_upper_bound. lia. }
    destruct (lookup_lt_is_Some_2 population j Hjn) as [x Hx].
    rewrite Hx.
    assert (Hjnew : j ∉ idxs).
    { intros Hin. apply Hnew. rewrite <- Hj. unfold selected.
      by apply elem_of_list_to_set. }
    destruct (IH (j :: idxs) (out ++ [x]) g1)
      as (idxs' & g' & Hrun & Hk & Hnd' & Hlt & Htape' & Hperiod' & Hpos').
    { by constructor. }
    { cbn [length]. lia. }
    cbn [list_to_set] in Hrun. fold selected in Hrun.
    exists (j :: idxs'), g'. rewrite Hrun. cbn [fmap list_fmap].
    rewrite <- app_assoc. cbn [app].
    rewrite (nth_lookup_Some _ _ d _ Hx).
    split; [done|]. split; [cbn; lia|].
    split.
    { apply NoDup_app. apply NoDup_cons in Hnd' as [Hj' Hnd'].
      apply NoDup_app in Hnd' as (_ & Hdisj & Hnd'').
      split; [done|]. split.
      - intros i Hi [->|Hi']%elem_of_cons; [done|]. by eapply Hdisj.
      - constructor; [|done]. intros Hin. apply Hj'.
        apply elem_of_app. by right. }
    split; [by constructor|].
    split; [congruence|]. split; [congruence|lia].
Qed.

(** [random.sample] with a count in range returns that many items of the
    population, no position of it used twice. *)
Lemma sample_spec {A : Type} (population : list A) (k : Z)
    (g : random.RandomState) :
  (0 ≤ k ≤ Z.of_nat (length population))%Z →
  ∃ chosen g',
    random.sample population k g = Return (chosen, g')
    ∧ Z.of_nat (length chosen) = k
    ∧ chosen ⊆+ population.
Proof.
  intros Hk. unfold random.sample. rewrite bool_decide_eq_true_2 by done.
  case_bool_decide as Hsize.
  - destruct (sample_loop_spec (Z.to_nat k) (length population) population
                [] g)
      as (chosen & g' & Hrun & Hlen & Hsub); [lia|lia|].
    exists chosen, g'. rewrite Hrun. rewrite firstn_all in Hsub.
    split; [done|]. split; [lia|done].
  - destruct population as [|d population'] eqn:Hpop.
    { exfalso. apply Hsize. unfold random.setsize.
      case_bool_decide; cbn [length]; [|lia].
      assert (0 ≤ 4 ^ ((Z.log2_up (k * 3) + 1) `div` 2))%Z
        by (apply Z.pow_nonneg; lia).
      lia. }
    rewrite <- Hpop in *.
    destruct (sample_set_loop_spec d population (Z.to_nat k) [] [] g)
      as (idxs & g' & Hrun & Hlen & Hnd & Hlt & _); [constructor|cbn; lia|].
    cbn [list_to_set] in Hrun.
    exists ((λ i, nth i population d) <$> idxs), g'. rewrite Hrun.
    split; [done|]. split; [rewrite length_fmap; lia|].
    by apply lookups_submseteq.
Qed.

Lemma submseteq_NoDup {A : Type} (l k : list A) :
  l ⊆+ k → NoDup k → NoDup l.
Proof.
  intros Hsub Hk. apply submseteq_sublist_r in Hsub as (l2 & Hperm & Hsl).
  rewrite Hperm. by eapply sublist_NoDup.
Qed.

(** ** Lists handed back to the caller *)

Lemma new_list_lookup its s :
  lists (new_list its s).2 !! (new_list its s).1 = Some its.
Proof. cbn. apply lookup_insert_eq. Qed.

Lemma new_list_frame its s l :
  is_Some (lists s !! l) →
  lists (new_list its s).2 !! l = lists s !! l.
Proof.
  intros Hl. cbn. apply lookup_insert_ne. intros <-.
  rewrite fresh_list_None in Hl. by destruct Hl.
Qed.

Lemma items_is_Some s : items s ≠ [] → is_Some (lists s !! data_array s).
Proof.
  unfold items. rewrite lookup_total_alt.
  destruct (lists s !! data_array s); [eauto|done].
Qed.

Lemma items_lookup s its : lists s !! data_array s = Some its → items s = its.
Proof. intros H. unfold items. by rewrite lookup_total_alt, H. Qed.

(** A new list leaves the collection of the processor as it was. *)
Lemma new_list_items its s :
  is_Some (lists s !! data_array s) →
  items (new_list its s).2 = items s.
Proof.
  intros Hl. unfold items at 1. rewrite lookup_total_alt.
  change (data_array (new_list its s).2) with (data_array s).
  rewrite new_list_frame by done. by rewrite <- lookup_total_alt.
Qed.

(** ** The sampler *)

(** C3. When the collection is not empty and [n] is at least its length,
    [get_random_records] prints the clamp warning and returns a list with
    every record of the collection exactly once, in the stored order. *)
Theorem get_random_records_clamp (n : Z) (s : state) :
  items s ≠ [] →
  (Z.of_nat (length (items s)) ≤ n)%Z →
  ∃ ret s',
    get_random_records n s = Return (ret, s')
    ∧ lists s' !! ret = Some (items s)
    ∧ mapM (λ o, dicts s' !! o) (items s) = records s
    ∧ stdout s' = stdout s ++ [WarnClamp n (length (items s)); ReturningAll]
    ∧ is_warning (WarnClamp n (length (items s))) = true.
Proof.
  intros Hne Hn. unfold get_random_records.
  rewrite bool_decide_eq_false_2 by done.
  assert (0 < length (items s)) by (destruct (items s); [done|cbn; lia]).
  rewrite bool_decide_eq_false_2 by lia.
  rewrite bool_decide_eq_true_2 by done.
  eexists _, _. split; [reflexivity|].
  split; [apply lookup_insert_eq|].
  split; [done|]. split; [|done].
  cbn. by rewrite <- app_assoc.
Qed.

Lemma get_random_records_clamp_witness :
  ∃ ret s',
    get_random_records 5 demo_state = Return (ret, s')
    ∧ lists s' !! ret = Some (items demo_state)
    ∧ mapM (λ o, dicts s' !! o) (items demo_state) = records demo_state
    ∧ stdout s' = stdout demo_state
                    ++ [WarnClamp 5 (length (items demo_state)); ReturningAll]
    ∧ is_warning (WarnClamp 5 (length (items demo_state))) = true.
Proof.
  apply (get_random_records_clamp 5 demo_state).
  - vm_compute. discriminate.
  - vm_compute. discriminate.
Defined.

(** C4. When [0 < n < len(self.data_array)], [get_random_records] returns
    exactly [n] records of the collection, no place of the collection used
    twice: the result is a sub-multiset of the collection, so no record
    appears in it more often than in the collection, and never twice when
    the records of the collection are different objects. *)
Theorem get_random_records_sample (n : Z) (s : state) :
  (0 < n)%Z →
  (n < Z.of_nat (length (items s)))%Z →
  ∃ ret s' chosen,
    get_random_records n s = Return (ret, s')
    ∧ lists s' !! ret = Some chosen
    ∧ Z.of_nat (length chosen) = n
    ∧ chosen ⊆+ items s
    ∧ (∀ o, o ∈ chosen → o ∈ items s)
    ∧ (NoDup (items s) → NoDup chosen)
    ∧ dicts s' = dicts s.
Proof.
  intros Hpos Hlt. unfold get_random_records.
  rewrite bool_decide_eq_false_2
    by (intros Hnil; rewrite Hnil in Hlt; cbn in Hlt; lia).
  rewrite bool_decide_eq_false_2 by lia.
  rewrite bool_decide_eq_false_2 by lia.
  destruct (sample_spec (items s) n (rng s)) as (chosen & g' & Hrun & Hlen & Hsub);
    [lia|].
  rewrite Hrun. cbn.
  eexists _, _, chosen. split; [reflexivity|].
  split; [apply lookup_insert_eq|].
  split; [done|]. split; [done|].
  split; [intros o Ho; by eapply elem_of_submseteq|].
  split; [by apply submseteq_NoDup|done].
Qed.

Lemma get_random_records_sample_witness :
  ∃ ret s' chosen,
    get_random_records 3 (long_state (replay [1; 2; 2; 11]))
      = Return (ret, s')
    ∧ lists s' !! ret = Some chosen
    ∧ Z.of_nat (length chosen) = 3%Z
    ∧ chosen ⊆+ items (long_state (replay [1; 2; 2; 11]))
    ∧ (∀ o, o ∈ chosen → o ∈ items (long_state (replay [1; 2; 2; 11])))
    ∧ (NoDup (items (long_state (replay [1; 2; 2; 11]))) → NoDup chosen)
    ∧ dicts s' = dicts (long_state (replay [1; 2; 2; 11])).
Proof.
  apply (get_random_records_sample 3 (long_state (replay [1; 2; 2; 11]))).
  - lia.
  - vm_compute. reflexivity.
Defined.




(** A list allocated in a state that has the lists and the row objects of
    [s] leaves the collection of [s] as it was. *)
Lemma new_list_preserves its s0 s :
  data_array s0 = data_array s →
  lists s0 = lists s →
  dicts s0 = dicts s →
  is_Some (lists s !! data_array s) →
  data_array (new_list its s0).2 = data_array s
  ∧ items (new_list its s0).2 = items s
  ∧ dicts (new_list its s0).2 = dicts s
  ∧ records (new_list its s0).2 = records s
  ∧ lists s ⊆ lists (new_list its s0).2.
Proof.
  intros Hd Hl Hr Hsome.
  assert (Hit : items (new_list its s0).2 = items s).
  { rewrite new_list_items by (rewrite Hd, Hl; done).
    unfold items. by rewrite Hd, Hl. }
  split; [done|]. split; [done|]. split; [done|].
  split.
  - unfold records. rewrite Hit. cbn. by rewrite Hr.
  - cbn. rewrite Hl. apply insert_subseteq, fresh_list_None.
Qed.

(** What [get_random_records] leaves as it was, in every branch. *)
Lemma get_random_records_preserves (n : Z) (s : state) :
  is_Some (lists s !! data_array s) →
  ∃ ret s',
    get_random_records n s = Return (ret, s')
    ∧ data_array s' = data_array s
    ∧ items s' = items s
    ∧ dicts s' = dicts s
    ∧ records s' = records s
    ∧ lists s ⊆ lists s'.
Proof.
  intros Hsome. unfold get_random_records. repeat case_bool_decide.
  - eexists _, _. split; [reflexivity|]. by apply new_list_preserves.
  - eexists _, _. split; [reflexivity|]. by apply new_list_preserves.
  - eexists _, _. split; [reflexivity|]. by apply new_list_preserves.
  - destruct (sample_spec (items s) n (rng s)) as (chosen & g' & Hrun & _);
      [lia|].
    rewrite Hrun. cbn [new_list].
    eexists _, _. split; [reflexivity|].
    apply (new_list_preserves chosen (set_rng g' s) s); done.
Qed.

(** C6. [get_random_records] does not change the record collection: the
    attribute refers to the same list, the list holds the same items in the
    same order, and every row object and every list allocated before the
    call is as it was. *)
Theorem get_random_records_frame (n : Z) (s : state) :
  is_Some (lists s !! data_array s) →
  ∃ ret s',
    get_random_records n s = Return (ret, s')
    ∧ data_array s' = data_array s
    ∧ items s' = items s
    ∧ dicts s' = dicts s
    ∧ records s' = records s
    ∧ lists s ⊆ lists s'.
Proof. apply get_random_records_preserves. Qed.

Lemma get_random_records_frame_witness :
  ∃ ret s',
    get_random_records 1 demo_state = Return (ret, s')
    ∧ data_array s' = data_array demo_state
    ∧ items s' = items demo_state
    ∧ dicts s' = dicts demo_state
    ∧ records s' = records demo_state
    ∧ lists demo_state ⊆ lists s'.
Proof.
  apply (get_random_records_frame 1 demo_state).
  vm_compute. eauto.
Defined.

(** Storing into a list other than the one [self.data_array] refers to
    leaves the collection as it was. *)
Lemma list_store_preserves ret items' s' s :
  ret ≠ data_array s →
  data_array s' = data_array s →
  lists s' !! data_array s = lists s !! data_array s →
  dicts s' = dicts s →
  items (list_store ret items' s') = items s
  ∧ records (list_store ret items' s') = records s.
Proof.
  intros Hret Hd Hl Hr.
  assert (Hit : items (list_store ret items' s') = items s).
  { unfold items. rewrite !lookup_total_alt. cbn. rewrite Hd.
    rewrite lookup_insert_ne by done. by rewrite Hl. }
  split; [done|]. unfold records. rewrite Hit. cbn. by rewrite Hr.
Qed.

(** C7, as the code has it. The list returned when the whole collection is
    handed back is a new list of the same row objects: whatever the caller
    does to the list itself, the collection of the processor stays as it
    was. *)
Theorem get_random_records_copy (n : Z) (s : state) (items' : list loc) :
  items s ≠ [] →
  (Z.of_nat (length (items s)) ≤ n)%Z →
  ∃ ret s',
    get_random_records n s = Return (ret, s')
    ∧ lists s' !! ret = Some (items s)
    ∧ ret ≠ data_array s
    ∧ items (mutate ret (SetItems items') s') = items s
    ∧ records (mutate ret (SetItems items') s') = records s.
Proof.
  intros Hne Hn. unfold get_random_records.
  rewrite bool_decide_eq_false_2 by done.
  assert (0 < length (items s)) by (destruct (items s); [done|cbn; lia]).
  rewrite bool_decide_eq_false_2 by lia.
  rewrite bool_decide_eq_true_2 by done.
  pose proof (items_is_Some s Hne) as Hsome.
  assert (Hfresh : fresh (dom (lists s)) ≠ data_array s).
  { intros Heq. rewrite <- Heq, fresh_list_None in Hsome. by destruct Hsome. }
  eexists _, _. split; [reflexivity|].
  split; [apply lookup_insert_eq|]. split; [done|].
  apply (list_store_preserves _ _ _ s); [done|done| |done].
  cbn. by apply lookup_insert_ne.
Qed.

Lemma get_random_records_copy_witness :
  ∃ ret s',
    get_random_records 5 demo_state = Return (ret, s')
    ∧ lists s' !! ret = Some (items demo_state)
    ∧ ret ≠ data_array demo_state
    ∧ items (mutate ret (SetItems []) s') = items demo_state
    ∧ records (mutate ret (SetItems []) s') = records demo_state.
Proof.
  apply (get_random_records_copy 5 demo_state []).
  - vm_compute. discriminate.
  - vm_compute. discriminate.
Defined.

(** C7, as stated, fails: the row objects of the returned list are those of
    the processor. After the caller writes the id 99 into the first record
    of the returned list, the collection of the processor holds the ids 99
    and 3 where it held 1 and 3. *)
Lemma get_random_records_copy_is_shallow :
  ∃ ret s',
    get_random_records 5 demo_state = Return (ret, s')
    ∧ record_ids s' = Some [1; 3]%Z
    ∧ record_ids (mutate ret (SetRecord 0 {| id := 99; data := ∅ |}) s')
        = Some [99; 3]%Z
    ∧ records (mutate ret (SetRecord 0 {| id := 99; data := ∅ |}) s')
        ≠ records s'.
Proof.
  eexists _, _. split; [vm_compute; reflexivity|].
  split; [vm_compute; reflexivity|].
  split; [vm_compute; reflexivity|].
  intros Heq.
  apply (f_equal (fmap (λ rs : list row_object, id <$> rs))) in Heq.
  vm_compute in Heq. discriminate.
Qed.

(** ** Frames and row objects *)

(** The rows [dropna] keeps of a grid indexed from [k] on: their index
    labels go up strictly and start at [k] or later. *)
Lemma kept_index_sorted cols grid : ∀ k : nat,
  StronglySorted Z.lt
    (filter (λ r : Z * list value, any_notna cols r.2)
       (imap (λ i row, (Z.of_nat (k + i), row)) grid)).*1
  ∧ Forall (λ i, Z.of_nat k ≤ i)%Z
      (filter (λ r : Z * list value, any_notna cols r.2)
         (imap (λ i row, (Z.of_nat (k + i), row)) grid)).*1.
Proof.
  induction grid as [|row grid IH]; intros k.
  - split; constructor.
  - cbn [imap].
    rewrite (imap_ext _ (λ i row, (Z.of_nat (S k + i), row)))
      by (intros; cbn; do 2 f_equal; lia).
    destruct (IH (S k)) as [Hsorted Hge].
    assert (Hge' : Forall (λ i, Z.of_nat k ≤ i)%Z
      (filter (λ r : Z * list value, any_notna cols r.2)
         (imap (λ i row, (Z.of_nat (S k + i), row)) grid)).*1).
    { eapply Forall_impl; [exact Hge|]. cbn. intros; lia. }
    rewrite filter_cons. case_decide; [|done].
    cbn [fmap list_fmap fst]. split.
    + apply SSorted_cons; [done|].
      eapply Forall_impl; [exact Hge|]. cbn. intros; lia.
    + constructor; [lia|done].
Qed.

(** The rows [dropna] keeps are the rows of the grid that are not entirely
    empty, in the order of the grid. *)
Lemma kept_rows cols grid : ∀ k : nat,
  (filter (λ r : Z * list value, any_notna cols r.2)
     (imap (λ i row, (Z.of_nat (k + i), row)) grid)).*2
  = non_empty_rows cols grid.
Proof.
  unfold non_empty_rows.
  induction grid as [|row grid IH]; intros k; [done|].
  cbn [imap].
  rewrite (imap_ext _ (λ i row, (Z.of_nat (S k + i), row)))
    by (intros; cbn; do 2 f_equal; lia).
  rewrite !filter_cons. cbn [snd].
  case_decide; cbn [fmap list_fmap snd]; by rewrite IH.
Qed.

(** A kept row sits in the grid at the position its index label names. *)
Lemma kept_row_lookup cols (grid : list (list value)) (i : Z) row :
  (i, row) ∈ rows (dropna (frame cols grid)) ↔
  ∃ k : nat, i = Z.of_nat k ∧ grid !! k = Some row ∧ any_notna cols row.
Proof.
  cbn. rewrite list_elem_of_filter, list_elem_of_lookup. cbn. split.
  - intros [Hne [k Hk]]. rewrite list_lookup_imap in Hk.
    destruct (grid !! k) as [row'|] eqn:Hrow; [|done].
    cbn in Hk. simplify_eq. eauto.
  - intros (k & -> & Hrow & Hne). split; [done|]. exists k.
    rewrite list_lookup_imap, Hrow. done.
Qed.

Lemma row_objects_ids cols grid :
  id <$> row_objects cols grid
  = (λ i, i + 1)%Z <$> (rows (dropna (frame cols grid))).*1.
Proof. unfold row_objects. rewrite <- !list_fmap_compose. done. Qed.

(** As many row objects as rows that are not entirely empty. *)
Lemma row_objects_length cols grid :
  length (row_objects cols grid) = length (non_empty_rows cols grid).
Proof.
  unfold row_objects. rewrite length_fmap.
  rewrite <- (kept_rows cols grid 0), length_fmap. done.
Qed.


(** The keys of the payload: the names of the columns, on top of the keys
    there were. *)
Lemma fill_data_dom row cols : ∀ i d,
  dom (fill_data row i cols d) = list_to_set (str <$> cols) ∪ dom d.
Proof.
  induction cols as [|column cols IH]; intros i d; cbn.
  - by rewrite (left_id_L ∅ (∪)).
  - rewrite IH, dom_insert_L, !(assoc_L (∪)).
    by rewrite (comm_L (∪) (list_to_set (str <$> cols))).
Qed.



(** ** The record store *)

Lemma get_total_records_init g : get_total_records (init g) = 0%Z.
Proof. reflexivity. Qed.

Lemma records_init g : records (init g) = Some [].
Proof. reflexivity. Qed.

Lemma wf_init g : wf (init g).
Proof.
  split; [by eexists|]. split; [by eexists|]. constructor.
Qed.

(** Sampling keeps states well formed. *)
Lemma wf_get_random_records n s ret s' :
  wf s → get_random_records n s = Return (ret, s') → wf s'.
Proof.
  intros (Hsome & Hrs & Hnd) Hrun.
  destruct (get_random_records_preserves n s Hsome)
    as (ret' & s'' & Hrun' & Hd & Hit & _ & Hrs' & Hsub).
  rewrite Hrun in Hrun'. simplify_eq.
  split; [|split].
  - rewrite Hd. destruct Hsome as [its Hits].
    exists its. by eapply lookup_weaken.
  - by rewrite Hrs'.
  - by rewrite Hit.
Qed.

Section Loading.

Variable read_excel : string → option string → read_result.

(** A load whose read succeeds: the collection is a new list of new row
    objects, one per row that is not entirely empty, and two lines are
    printed. *)
Lemma load_excel_parsed file_path sheet_name s cols grid :
  read_excel file_path (selected_sheet sheet_name) = Parsed cols grid →
  records (load_excel read_excel file_path sheet_name s)
    = Some (row_objects cols grid)
  ∧ length (items (load_excel read_excel file_path sheet_name s))
    = length (row_objects cols grid)
  ∧ NoDup (items (load_excel read_excel file_path sheet_name s))
  ∧ is_Some (lists (load_excel read_excel file_path sheet_name s)
               !! data_array (load_excel read_excel file_path sheet_name s))
  ∧ stdout (load_excel read_excel file_path sheet_name s)
    = stdout s ++ [LoadedOk (length (row_objects cols grid));
                   ColumnsFound cols].
Proof.
  intros Hread. unfold load_excel. rewrite Hread.
  unfold new_list. cbv iota.
  change (columns (dropna (frame cols grid))) with cols.
  set (s2 := set_data_array _ _).
  destruct (load_rows_spec cols (rows (dropna (frame cols grid))) s2 [] [])
    as (its & Hd & Hl & Hm & Hnd & Ho & Hg).
  { apply lookup_insert_eq. }
  { done. }
  { constructor. }
  cbn [app] in Hm. fold (row_objects cols grid) in Hm.
  set (s3 := foldl _ _ _) in *.
  assert (Hit : items s3 = its) by (apply items_lookup; by rewrite Hd).
  assert (Hlen : length its = length (row_objects cols grid))
    by (by eapply length_mapM).
  rewrite Hit.
  set (s' := print _ (print _ s3)).
  change (items s') with (items s3).
  change (records s') with (mapM (λ o, dicts s3 !! o) (items s3)).
  change (lists s' !! data_array s') with (lists s3 !! data_array s3).
  change (stdout s') with
    ((stdout s3 ++ [LoadedOk (length its)]) ++ [ColumnsFound cols]).
  rewrite Hit, Hd, Hl, Ho, Hlen, <- app_assoc. eauto 10.
Qed.

(** The count after a load whose read succeeds: the number of rows of
    the grid that are not entirely empty. *)
Lemma load_excel_count file_path sheet_name s cols grid :
  read_excel file_path (selected_sheet sheet_name) = Parsed cols grid →
  get_total_records (load_excel read_excel file_path sheet_name s)
    = Z.of_nat (length (non_empty_rows cols grid)).
Proof.
  intros Hread. unfold get_total_records.
  destruct (load_excel_parsed _ _ s _ _ Hread) as (_ & Hlen & _).
  by rewrite Hlen, row_objects_length.
Qed.

(** C2, as the code has it. A load whose read fails prints one line and
    leaves the collection it found: the same list, the same row objects.
    When the collection was empty before the call, it is empty after it
    and the count is 0. *)
Theorem load_excel_failure file_path sheet_name s :
  (∀ cols grid,
     read_excel file_path (selected_sheet sheet_name) ≠ Parsed cols grid) →
  data_array (load_excel read_excel file_path sheet_name s) = data_array s
  ∧ lists (load_excel read_excel file_path sheet_name s) = lists s
  ∧ dicts (load_excel read_excel file_path sheet_name s) = dicts s
  ∧ records (load_excel read_excel file_path sheet_name s) = records s
  ∧ get_total_records (load_excel read_excel file_path sheet_name s)
    = get_total_records s
  ∧ (items s = [] →
     records (load_excel read_excel file_path sheet_name s) = Some []
     ∧ get_total_records (load_excel read_excel file_path sheet_name s)
       = 0%Z)
  ∧ ∃ e, stdout (load_excel read_excel file_path sheet_name s)
         = stdout s ++ [e].
Proof.
  intros Hfail.
  assert (Hrun : ∃ e, load_excel read_excel file_path sheet_name s
                      = print e s).
  { unfold load_excel.
    destruct (read_excel file_path (selected_sheet sheet_name))
      as [cols grid| |e] eqn:Hread; [by destruct (Hfail cols grid)|eauto..]. }
  destruct Hrun as [e ->].
  split; [done|]. split; [done|]. split; [done|]. split; [done|].
  split; [done|]. split; [|by exists e].
  intros Hnil. unfold records, get_total_records.
  change (items (print e s)) with (items s). by rewrite Hnil.
Qed.

(** C8. After a load whose read succeeds, the keys of the payload of
    every record are the names of the columns of the grid, each taken
    through [str]. *)
Theorem load_excel_payload_keys file_path sheet_name s cols grid :
  read_excel file_path (selected_sheet sheet_name) = Parsed cols grid →
  ∃ rs,
    records (load_excel read_excel file_path sheet_name s) = Some rs
    ∧ Forall (λ r, dom (data r) = list_to_set (str <$> cols)) rs.
Proof.
  intros Hread. destruct (load_excel_parsed _ _ s _ _ Hread) as (Hrs & _).
  exists (row_objects cols grid). split; [done|].
  unfold row_objects. apply Forall_fmap, Forall_forall. intros r _. cbn.
  by rewrite fill_data_dom, dom_empty_L, (right_id_L ∅ (∪)).
Qed.

(** C10. After a load whose read succeeds, the ids go up strictly in the
    stored order, each is at least 1, and they are the positions, plus
    one, of the rows of the grid that are not entirely empty. *)
Theorem load_excel_ids_increasing file_path sheet_name s cols grid :
  read_excel file_path (selected_sheet sheet_name) = Parsed cols grid →
  ∃ ids,
    record_ids (load_excel read_excel file_path sheet_name s) = Some ids
    ∧ StronglySorted Z.lt ids
    ∧ Forall (λ i, 1 ≤ i)%Z ids
    ∧ ∀ i, i ∈ ids ↔
           ∃ (k : nat) row,
             grid !! k = Some row ∧ any_notna cols row
             ∧ i = (Z.of_nat k + 1)%Z.
Proof.
  intros Hread. destruct (load_excel_parsed _ _ s _ _ Hread) as (Hrs & _).
  exists (id <$> row_objects cols grid).
  split; [unfold record_ids; by rewrite Hrs|].
  rewrite row_objects_ids.
  destruct (kept_index_sorted cols grid 0) as [Hsorted Hge].
  split; [|split].
  - eapply StronglySorted_fmap; [|exact Hsorted]. intros; lia.
  - apply Forall_fmap. eapply Forall_impl; [exact Hge|]. cbn. intros; lia.
  - intros i. rewrite list_elem_of_fmap. split.
    + intros (j & -> & [[j' row] [Hj Hin]]%list_elem_of_fmap).
      cbn in Hj. subst j'.
      apply kept_row_lookup in Hin as (k & -> & Hrow & Hne). eauto.
    + intros (k & row & Hrow & Hne & ->). exists (Z.of_nat k).
      split; [done|]. apply list_elem_of_fmap. exists (Z.of_nat k, row).
      split; [done|]. apply kept_row_lookup. eauto.
Qed.

(** Loading keeps states well formed, whether the read succeeds or
    fails. *)
Lemma wf_load_excel file_path sheet_name s :
  wf s → wf (load_excel read_excel file_path sheet_name s).
Proof.
  intros Hwf.
  destruct (read_excel file_path (selected_sheet sheet_name))
    as [cols grid| |e] eqn:Hread.
  - destruct (load_excel_parsed _ _ s _ _ Hread)
      as (Hrs & _ & Hnd & Hsome & _).
    split; [done|]. split; [by rewrite Hrs|done].
  - unfold load_excel. by rewrite Hread.
  - unfold load_excel. by rewrite Hread.
Qed.

End Loading.


Lemma demo_missing cols grid :
  demo_reader "missing.xlsx" (selected_sheet None) ≠ Parsed cols grid.
Proof. discriminate. Qed.

(** C1, on the small run. The grid has two rows that are not entirely
    empty and the count after the load is 2, but the ids are 1 and 3: the
    empty row between them used up the id 2. *)
Theorem load_excel_ids_gap :
  length (non_empty_rows demo_columns demo_grid) = 2
  ∧ get_total_records demo_state = 2%Z
  ∧ record_ids demo_state = Some [1; 3]%Z.
Proof. split; [|split]; reflexivity. Qed.

(** C2, as stated, fails: a load that does not find its file, after a load
    of two records, leaves these two records in the collection and the
    count at 2. *)
Lemma load_excel_failure_keeps_collection :
  demo_reader "missing.xlsx" (selected_sheet None) = FileNotFoundError
  ∧ get_total_records (load_excel demo_reader "missing.xlsx" None demo_state)
    = 2%Z
  ∧ record_ids (load_excel demo_reader "missing.xlsx" None demo_state)
    = Some [1; 3]%Z
  ∧ records (load_excel demo_reader "missing.xlsx" None demo_state)
    ≠ Some [].
Proof.
  split; [reflexivity|]. split; [reflexivity|]. split; [reflexivity|].
  intros Heq. apply (f_equal (fmap (length (A:=row_object)))) in Heq.
  vm_compute in Heq. discriminate.
Qed.

Lemma load_excel_failure_witness :
  records (load_excel demo_reader "missing.xlsx" None demo_state)
    = records demo_state
  ∧ get_total_records (load_excel demo_reader "missing.xlsx" None demo_state)
    = get_total_records demo_state.
Proof.
  destruct (load_excel_failure demo_reader "missing.xlsx" None demo_state
              demo_missing) as (_ & _ & _ & Hrs & Hcount & _).
  split; [exact Hrs|exact Hcount].
Defined.

Lemma load_excel_payload_keys_witness :
  ∃ rs,
    records demo_state = Some rs
    ∧ Forall (λ r, dom (data r) = list_to_set (str <$> demo_columns)) rs.
Proof.
  apply (load_excel_payload_keys demo_reader "datos.xlsx" None
           (init demo_generator) demo_columns demo_grid).
  reflexivity.
Defined.

Lemma load_excel_ids_increasing_witness :
  ∃ ids,
    record_ids demo_state = Some ids
    ∧ StronglySorted Z.lt ids
    ∧ Forall (λ i, 1 ≤ i)%Z ids
    ∧ ∀ i, i ∈ ids ↔
           ∃ (k : nat) row,
             demo_grid !! k = Some row ∧ any_notna demo_columns row
             ∧ i = (Z.of_nat k + 1)%Z.
Proof.
  apply (load_excel_ids_increasing demo_reader "datos.xlsx" None
           (init demo_generator) demo_columns demo_grid).
  reflexivity.
Defined.

(** ** Cells *)



(** * Further properties *)

(** ** Row objects of a grid *)

Lemma row_objects_sorted cols grid :
  StronglySorted Z.lt (id <$> row_objects cols grid)
  ∧ Forall (λ r, 1 ≤ id r)%Z (row_objects cols grid).
Proof.
  destruct (kept_index_sorted cols grid 0) as [Hsorted Hge]. split.
  - rewrite row_objects_ids.
    eapply StronglySorted_fmap; [|exact Hsorted]. intros; lia.
  - unfold row_objects. apply Forall_fmap.
    apply (Forall_fmap fst) in Hge.
    eapply Forall_impl; [exact Hge|]. cbn. intros; lia.
Qed.

Lemma row_objects_dom cols grid :
  Forall (λ r, dom (data r) = list_to_set (str <$> cols))
    (row_objects cols grid).
Proof.
  unfold row_objects. apply Forall_fmap, Forall_forall. intros r _. cbn.
  by rewrite fill_data_dom, dom_empty_L, (right_id_L ∅ (∪)).
Qed.

(** A treated cell is None or a value that is not missing and is no numpy
    scalar. *)
Lemma normalize_plain v : plain (normalize v) = true.
Proof.
  unfold normalize. destruct (pd.isna v) eqn:Hna; [done|].
  destruct v; cbn in *; try done; by rewrite Hna.
Qed.

(** A treated cell that was no date cell is of a native kind. *)
Lemma normalize_native v : is_datetime v = false → native (normalize v) = true.
Proof.
  intros Hv. unfold normalize. destruct (pd.isna v) eqn:Hna; [done|].
  destruct v; cbn in *; try done; by rewrite Hna.
Qed.

Lemma native_encodable v : native v = true → json.encodable v = true.
Proof. by destruct v. Qed.

Lemma cell_dateless row i :
  Forall (λ v, is_datetime v = false) row → is_datetime (cell row i) = false.
Proof.
  intros Hrow. unfold cell. destruct (row !! i) as [v|] eqn:Hv; [|done].
  rewrite Forall_forall in Hrow. apply Hrow. by eapply list_elem_of_lookup_2.
Qed.

(** What holds of every treated cell of a row holds of every value of the
    payload. *)
Lemma fill_data_Forall (Q : value → Prop) row cols : ∀ i d,
  (∀ j, Q (normalize (cell row j))) →
  map_Forall (λ _ v, Q v) d →
  map_Forall (λ _ v, Q v) (fill_data row i cols d).
Proof.
  induction cols as [|column cols IH]; intros i d Hrow Hd; [done|].
  cbn. apply IH; [done|]. by apply map_Forall_insert_2.
Qed.

Lemma row_objects_plain cols grid :
  Forall (λ r, map_Forall (λ _ v, plain v = true) (data r))
    (row_objects cols grid).
Proof.
  unfold row_objects. apply Forall_fmap, Forall_forall. intros r _. cbn.
  apply fill_data_Forall; [|apply map_Forall_empty].
  intros j. apply normalize_plain.
Qed.

Lemma row_objects_native cols grid :
  dateless_grid grid →
  Forall (λ r, map_Forall (λ _ v, native v = true) (data r))
    (row_objects cols grid).
Proof.
  intros Hgrid.
  assert (Hkept : Forall (Forall (λ v, is_datetime v = false))
                    (rows (dropna (frame cols grid))).*2).
  { change (rows (dropna (frame cols grid))) with
      (filter (λ r : Z * list value, any_notna cols r.2)
         (imap (λ i row, (Z.of_nat (0 + i), row)) grid)).
    rewrite kept_rows. unfold non_empty_rows.
    apply Forall_forall. intros row [_ Hrow]%list_elem_of_filter.
    unfold dateless_grid in Hgrid. rewrite Forall_forall in Hgrid. eauto. }
  rewrite Forall_fmap in Hkept.
  unfold row_objects. apply Forall_fmap.
  eapply Forall_impl; [exact Hkept|]. intros r Hr. cbn in *.
  apply fill_data_Forall; [|apply map_Forall_empty].
  intros j. by apply normalize_native, cell_dateless.
Qed.

Lemma native_dumps_ok d :
  map_Forall (λ _ v, native v = true) d → json.dumps_ok d = true.
Proof.
  intros Hd. apply bool_decide_eq_true_2.
  eapply map_Forall_impl; [exact Hd|]. intros k v. apply native_encodable.
Qed.

(** The index labels [dropna] keeps of a grid whose rows that are entirely
    empty all come last: the positions of the other rows. *)
Lemma kept_index_prefix cols full empty :
  Forall (λ row, any_notna cols row) full →
  Forall (λ row, ¬ any_notna cols row) empty →
  ∀ k : nat,
    (filter (λ r : Z * list value, any_notna cols r.2)
       (imap (λ i row, (Z.of_nat (k + i), row)) (full ++ empty))).*1
    = (λ i : nat, Z.of_nat i) <$> seq k (length full).
Proof.
  intros Hfull Hempty.
  induction Hfull as [|row full Hrow Hfull IH]; intros k.
  - cbn [app length seq fmap list_fmap].
    induction Hempty as [|row empty Hrow Hempty IH] in k |- *; [done|].
    cbn [imap]. rewrite filter_cons_False by done.
    rewrite (imap_ext _ (λ i row, (Z.of_nat (S k + i), row)))
      by (intros; cbn; do 2 f_equal; lia).
    apply IH.
  - cbn [app imap length seq]. rewrite filter_cons_True by done.
    rewrite (imap_ext _ (λ i row, (Z.of_nat (S k + i), row)))
      by (intros; cbn; do 2 f_equal; lia).
    cbn [fmap list_fmap fst]. rewrite IH. do 2 f_equal. lia.
Qed.

(** ** What a load leaves alone *)

(** The loop only adds row objects and only changes the list of the
    processor; the row objects it appends are new. *)
Lemma load_rows_frame cols rws : ∀ s its (D : gset loc),
  lists s !! data_array s = Some its →
  D ⊆ dom (dicts s) →
  Forall (λ o, o ∉ D) its →
  data_array (foldl (load_row cols) s rws) = data_array s
  ∧ dicts s ⊆ dicts (foldl (load_row cols) s rws)
  ∧ (∀ l, l ≠ data_array s →
          lists (foldl (load_row cols) s rws) !! l = lists s !! l)
  ∧ ∃ its', lists (foldl (load_row cols) s rws) !! data_array s = Some its'
            ∧ Forall (λ o, o ∉ D) its'.
Proof.
  induction rws as [|r rws IH]; intros s its D Hits HD Hout.
  - cbn. eauto 10.
  - cbn [foldl].
    set (o := fresh (dom (dicts s))).
    assert (Ho : o ∉ dom (dicts s)) by apply is_fresh.
    destruct (IH (load_row cols s r) (its ++ [o]) D)
      as (Hd & Hsub & Hother & its' & Hits' & Hout').
    { unfold load_row, new_dict, list_append. cbn.
      by rewrite lookup_alter_eq, Hits. }
    { unfold load_row, new_dict, list_append. cbn.
      rewrite dom_insert_L. etrans; [exact HD|]. apply union_subseteq_r. }
    { apply Forall_app. split; [done|]. constructor; [|done].
      intros Hin. apply Ho. revert Hin. apply HD. }
    change (data_array (load_row cols s r)) with (data_array s) in *.
    split; [done|]. split; [|split].
    + etrans; [|exact Hsub]. unfold load_row, new_dict, list_append. cbn.
      apply insert_subseteq. by apply not_elem_of_dom.
    + intros l Hl. rewrite Hother by done.
      unfold load_row, new_dict, list_append. cbn.
      by rewrite lookup_alter_ne.
    + eauto.
Qed.

Lemma mapM_lookup_weaken (d d' : gmap loc row_object) its rs :
  d ⊆ d' →
  mapM (λ o, d !! o) its = Some rs →
  mapM (λ o, d' !! o) its = Some rs.
Proof.
  intros Hsub Hrs. apply mapM_Some. apply mapM_Some in Hrs.
  eapply Forall2_impl; [exact Hrs|]. intros o r Ho. cbn beta in *.
  eapply lookup_weaken; [exact Ho|exact Hsub].
Qed.

Section Reloading.

Variable read_excel : string → option string → read_result.

(** A load, whether its read succeeds or fails, leaves every list and every
    row object allocated before it as it was; after a read that succeeds
    no item of the collection is a row object that was there before. *)
Lemma load_excel_frame file_path sheet_name s :
  lists s ⊆ lists (load_excel read_excel file_path sheet_name s)
  ∧ dicts s ⊆ dicts (load_excel read_excel file_path sheet_name s)
  ∧ (∀ cols grid,
       read_excel file_path (selected_sheet sheet_name) = Parsed cols grid →
       Forall (λ o, o ∉ dom (dicts s))
         (items (load_excel read_excel file_path sheet_name s))).
Proof.
  unfold load_excel.
  destruct (read_excel file_path (selected_sheet sheet_name))
    as [cols grid| |e]; [|done..].
  unfold new_list. cbv iota.
  change (columns (dropna (frame cols grid))) with cols.
  set (arr := fresh (dom (lists s))).
  set (s2 := set_data_array _ _).
  destruct (load_rows_frame cols (rows (dropna (frame cols grid))) s2 []
              (dom (dicts s)))
    as (Hd & Hsub & Hother & its' & Hits' & Hout).
  { apply lookup_insert_eq. }
  { done. }
  { constructor. }
  set (s3 := foldl _ _ _) in *.
  set (s' := print _ (print _ s3)).
  change (lists s') with (lists s3). change (dicts s') with (dicts s3).
  change (items s') with (items s3).
  split; [|split].
  - apply map_subseteq_spec. intros l its Hl.
    assert (l ≠ arr).
    { intros ->. unfold arr in Hl. by rewrite fresh_list_None in Hl. }
    rewrite Hother by done. cbn. by rewrite lookup_insert_ne.
  - exact Hsub.
  - intros ? ? _. rewrite (items_lookup s3 its'); [done|by rewrite Hd].
Qed.

(** X4. A load never changes a list it did not make: a list that held
    some records before the call, such as a list an earlier call of
    [get_random_records] returned or the collection that is replaced, holds
    the same records after it. *)
Theorem load_excel_keeps_old_lists file_path sheet_name s ret its rs :
  lists s !! ret = Some its →
  mapM (λ o, dicts s !! o) its = Some rs →
  lists (load_excel read_excel file_path sheet_name s) !! ret = Some its
  ∧ mapM (λ o, dicts (load_excel read_excel file_path sheet_name s) !! o) its
    = Some rs.
Proof.
  intros Hret Hrs.
  destruct (load_excel_frame file_path sheet_name s) as (Hl & Hd & _).
  split; [by eapply lookup_weaken|by eapply mapM_lookup_weaken].
Qed.

(** X3. A load whose read succeeds replaces the collection as a whole:
    the records it stores are those of the grid whatever was stored before,
    so loading the same grid again gives equal records, and the new
    collection shares no row object with the state before the call. *)
Theorem load_excel_replaces file_path sheet_name s cols grid :
  read_excel file_path (selected_sheet sheet_name) = Parsed cols grid →
  (∀ s0, records (load_excel read_excel file_path sheet_name s0)
         = records (load_excel read_excel file_path sheet_name s))
  ∧ records (load_excel read_excel file_path sheet_name
               (load_excel read_excel file_path sheet_name s))
    = records (load_excel read_excel file_path sheet_name s)
  ∧ Forall (λ o, dicts s !! o = None)
      (items (load_excel read_excel file_path sheet_name s))
  ∧ data_array (load_excel read_excel file_path sheet_name s)
    ∉ dom (lists s).
Proof.
  intros Hread.
  assert (Hany : ∀ s0, records (load_excel read_excel file_path sheet_name s0)
                       = Some (row_objects cols grid)).
  { intros s0. by destruct (load_excel_parsed read_excel _ _ s0 _ _ Hread). }
  split; [intros s0; by rewrite !Hany|]. split; [by rewrite !Hany|].
  split.
  - destruct (load_excel_frame file_path sheet_name s) as (_ & _ & Hnew).
    eapply Forall_impl; [exact (Hnew _ _ Hread)|].
    intros o Ho. by apply not_elem_of_dom.
  - unfold load_excel. rewrite Hread. unfold new_list. cbv iota.
    change (columns (dropna (frame cols grid))) with cols.
    set (s2 := set_data_array _ _).
    destruct (load_rows_spec cols (rows (dropna (frame cols grid))) s2 [] [])
      as (its & Hd & _); [apply lookup_insert_eq|done|constructor|].
    set (s3 := foldl _ _ _) in *.
    change (data_array (print _ (print _ s3))) with (data_array s3).
    rewrite Hd. apply is_fresh.
Qed.

(** X1. After a load whose read succeeds the count is the number of rows
    of the grid that are not entirely empty, and this is the number the
    success line reports, followed by the columns of the grid. *)
Theorem load_excel_counts_rows file_path sheet_name s cols grid :
  read_excel file_path (selected_sheet sheet_name) = Parsed cols grid →
  get_total_records (load_excel read_excel file_path sheet_name s)
    = Z.of_nat (length (non_empty_rows cols grid))
  ∧ stdout (load_excel read_excel file_path sheet_name s)
    = stdout s ++ [LoadedOk (length (non_empty_rows cols grid));
                   ColumnsFound cols].
Proof.
  intros Hread.
  destruct (load_excel_parsed read_excel _ _ s _ _ Hread)
    as (_ & Hlen & _ & _ & Hout).
  unfold get_total_records.
  by rewrite Hlen, Hout, row_objects_length.
Qed.

(** X2. When the rows of the grid that are entirely empty all come after
    the other rows (in particular when there is none), the ids after the
    load are 1, 2, ..., R for the R rows that are not empty. *)
Theorem load_excel_ids_contiguous file_path sheet_name s cols full empty :
  read_excel file_path (selected_sheet sheet_name)
    = Parsed cols (full ++ empty) →
  Forall (λ row, any_notna cols row) full →
  Forall (λ row, ¬ any_notna cols row) empty →
  record_ids (load_excel read_excel file_path sheet_name s)
    = Some ((λ i : nat, Z.of_nat i) <$> seq 1 (length full))
  ∧ get_total_records (load_excel read_excel file_path sheet_name s)
    = Z.of_nat (length full).
Proof.
  intros Hread Hfull Hempty.
  destruct (load_excel_parsed read_excel _ _ s _ _ Hread)
    as (Hrs & Hlen & _).
  assert (Hids : id <$> row_objects cols (full ++ empty)
                 = (λ i : nat, Z.of_nat i) <$> seq 1 (length full)).
  { rewrite row_objects_ids.
    change (rows (dropna (frame cols (full ++ empty)))) with
      (filter (λ r : Z * list value, any_notna cols r.2)
         (imap (λ i row, (Z.of_nat (0 + i), row)) (full ++ empty))).
    rewrite (kept_index_prefix cols full empty Hfull Hempty 0).
    rewrite <- fmap_S_seq, <- !list_fmap_compose.
    apply list_fmap_ext. intros ? i _. cbn. lia. }
  split.
  - unfold record_ids. rewrite Hrs. exact (f_equal Some Hids).
  - unfold get_total_records. rewrite Hlen.
    rewrite <- (length_fmap id), Hids, length_fmap, length_seq. done.
Qed.


End Reloading.

(** ** More on the sampler *)

(** The selection loop asks the generator once per item it selects. *)
Lemma sample_loop_rng {A : Type} (k : nat) :
  ∀ (m : nat) (pool selected chosen : list A) (g g' : random.RandomState),
    random.sample_loop k m pool selected g = Return (chosen, g') →
    random.tape g' = random.tape g
    ∧ random.pos g' = random.pos g + k.
Proof.
  induction k as [|k IH]; intros m pool selected chosen g g' Hrun.
  - cbn in Hrun. simplify_eq. split; [done|lia].
  - cbn [random.sample_loop random.randbelow] in Hrun.
    destruct (pool !! _) as [x|]; [|done].
    destruct (pool !! (m - 1)) as [y|]; [|done].
    apply IH in Hrun as [Htape Hpos]. cbn in Htape, Hpos.
    split; [done|lia].
Qed.

(** [random.sample] with a count in range only moves the generator on: by
    [k] draws at least, and by exactly [k] when it runs the pool
    algorithm. *)
Lemma sample_rng_spec {A : Type} (population : list A) (k : Z)
    (g : random.RandomState) :
  (0 ≤ k ≤ Z.of_nat (length population))%Z →
  ∃ chosen g',
    random.sample population k g = Return (chosen, g')
    ∧ random.tape g' = random.tape g
    ∧ random.pos g + Z.to_nat k ≤ random.pos g'
    ∧ ((Z.of_nat (length population) ≤ random.setsize k)%Z →
       random.pos g' = random.pos g + Z.to_nat k).
Proof.
  intros Hk. destruct (sample_spec population k g Hk)
    as (chosen & g' & Hrun & _).
  exists chosen, g'. split; [done|].
  unfold random.sample in Hrun. rewrite bool_decide_eq_true_2 in Hrun by done.
  case_bool_decide as Hsize.
  - apply sample_loop_rng in Hrun as [Htape Hpos].
    split; [done|]. split; [lia|done].
  - destruct population as [|d population'] eqn:Hpop.
    { exfalso. apply Hsize. unfold random.setsize.
      case_bool_decide; cbn [length]; [|lia].
      assert (0 ≤ 4 ^ ((Z.log2_up (k * 3) + 1) `div` 2))%Z
        by (apply Z.pow_nonneg; lia).
      lia. }
    rewrite <- Hpop in *.
    destruct (sample_set_loop_spec d population (Z.to_nat k) [] [] g)
      as (idxs & g1 & Hrun' & _ & _ & _ & Htape & _ & Hpos);
      [constructor|cbn; lia|].
    cbn [list_to_set] in Hrun'. rewrite Hrun in Hrun'. simplify_eq.
    split; [done|]. split; [lia|done].
Qed.

(** Records read through a selection of the items of a list are a
    selection of the records of the list. *)
Lemma Forall2_submseteq {A B : Type} (P : A → B → Prop) (l1 l2 : list A) :
  l1 ⊆+ l2 →
  ∀ k2, Forall2 P l2 k2 → ∃ k1, Forall2 P l1 k1 ∧ k1 ⊆+ k2.
Proof.
  induction 1 as [|x l1 l2 _ IH|x y l|x l1 l2 _ IH|l1 l2 l3 _ IH1 _ IH2];
    intros k2 HF.
  - exists []. split; [constructor|apply submseteq_nil_l].
  - apply Forall2_cons_inv_l in HF as (y & k & Hxy & HF & ->).
    destruct (IH _ HF) as (k1 & HF1 & Hsub).
    exists (y :: k1). split; [by constructor|by apply submseteq_skip].
  - apply Forall2_cons_inv_l in HF as (b & k & Hb & HF & ->).
    apply Forall2_cons_inv_l in HF as (a & k' & Ha & HF & ->).
    exists (a :: b :: k'). split; [by repeat constructor|].
    apply submseteq_swap.
  - apply Forall2_cons_inv_l in HF as (y & k & Hxy & HF & ->).
    destruct (IH _ HF) as (k1 & HF1 & Hsub).
    exists k1. split; [done|by apply submseteq_cons].
  - destruct (IH2 _ HF) as (k & HFk & Hsub2).
    destruct (IH1 _ HFk) as (k1 & HF1 & Hsub1).
    exists k1. split; [done|by etrans].
Qed.

Lemma StronglySorted_lt_NoDup (l : list Z) : StronglySorted Z.lt l → NoDup l.
Proof.
  induction 1 as [|x l _ IH Hx]; constructor; [|done].
  intros Hin. rewrite Forall_forall in Hx. specialize (Hx _ Hin). lia.
Qed.

(** The list [get_random_records] returns is the one allocated last. *)
Lemma get_random_records_ret (n : Z) (s : state) :
  ∃ ret s' its,
    get_random_records n s = Return (ret, s')
    ∧ ret = fresh (dom (lists s))
    ∧ lists s' = <[ret := its]> (lists s).
Proof.
  unfold get_random_records. repeat case_bool_decide.
  - eexists _, _, _. split; [reflexivity|]. done.
  - eexists _, _, _. split; [reflexivity|]. done.
  - eexists _, _, _. split; [reflexivity|]. done.
  - destruct (sample_spec (items s) n (rng s)) as (chosen & g' & Hrun & _);
      [lia|].
    rewrite Hrun. cbn [new_list].
    eexists _, _, _. split; [reflexivity|]. done.
Qed.

(** X7. [get_random_records] draws from the generator only when it
    samples ([0 < n < len(self.data_array)]): an empty collection, a count
    that is not positive and a count that is clamped leave the generator
    where it was. When it samples it draws at least [n] numbers, and
    exactly [n] when the collection is no longer than the [setsize] of
    [random.sample] (21 for [n <= 5]); above it a draw that hits a position
    selected before is made again. *)
Theorem get_random_records_draws (n : Z) (s : state) :
  ∃ ret s',
    get_random_records n s = Return (ret, s')
    ∧ random.tape (rng s') = random.tape (rng s)
    ∧ if bool_decide (0 < n < Z.of_nat (length (items s)))%Z
      then random.pos (rng s) + Z.to_nat n ≤ random.pos (rng s')
           ∧ ((Z.of_nat (length (items s)) ≤ random.setsize n)%Z →
              random.pos (rng s') = random.pos (rng s) + Z.to_nat n)
      else random.pos (rng s') = random.pos (rng s).
Proof.
  unfold get_random_records.
  destruct (decide (items s = [])) as [Hnil|Hne].
  { rewrite (bool_decide_eq_true_2 (items s = []) Hnil).
    rewrite bool_decide_eq_false_2 by (rewrite Hnil; cbn; lia).
    eexists _, _. split; [reflexivity|]. done. }
  rewrite (bool_decide_eq_false_2 (items s = []) Hne).
  destruct (decide (n ≤ 0)%Z) as [Hle|Hpos].
  { rewrite (bool_decide_eq_true_2 (n ≤ 0)%Z Hle).
    rewrite bool_decide_eq_false_2 by lia.
    eexists _, _. split; [reflexivity|]. done. }
  rewrite (bool_decide_eq_false_2 (n ≤ 0)%Z Hpos).
  destruct (decide (Z.of_nat (length (items s)) ≤ n)%Z) as [Hge|Hlt].
  { rewrite (bool_decide_eq_true_2 _ Hge).
    rewrite bool_decide_eq_false_2 by lia.
    eexists _, _. split; [reflexivity|]. done. }
  rewrite (bool_decide_eq_false_2 _ Hlt).
  rewrite bool_decide_eq_true_2 by lia.
  destruct (sample_rng_spec (items s) n (rng s))
    as (chosen & g' & Hrun & Htape & Hpos' & Hexact); [lia|].
  rewrite Hrun. cbn [new_list].
  eexists _, _. split; [reflexivity|]. done.
Qed.

(** A run of the library on 22 records: the draws 1, 2, 2, 11 select the
    records 2, 3 and 12; the second 2 is drawn again, so four numbers are
    drawn for three records. *)
Lemma get_random_records_redraws :
  ∃ ret s' chosen rs,
    get_random_records 3 (long_state (replay [1; 2; 2; 11]))
      = Return (ret, s')
    ∧ lists s' !! ret = Some chosen
    ∧ mapM (λ o, dicts s' !! o) chosen = Some rs
    ∧ id <$> rs = [2; 3; 12]%Z
    ∧ random.pos (rng s') = 4.
Proof.
  eexists _, _, _, _. split; [vm_compute; reflexivity|].
  split; [vm_compute; reflexivity|].
  split; [vm_compute; reflexivity|].
  split; reflexivity.
Qed.

(** X8. In every branch [get_random_records] returns a list that did not
    exist before the call, never the list of the processor: whatever the
    caller stores into the returned list, the collection stays as it was. *)
Theorem get_random_records_fresh (n : Z) (s : state) (items' : list loc) :
  is_Some (lists s !! data_array s) →
  ∃ ret s',
    get_random_records n s = Return (ret, s')
    ∧ lists s !! ret = None
    ∧ ret ≠ data_array s
    ∧ items (mutate ret (SetItems items') s') = items s
    ∧ records (mutate ret (SetItems items') s') = records s.
Proof.
  intros Hsome.
  destruct (get_random_records_ret n s) as (ret & s' & its & Hrun & -> & Hl).
  destruct (get_random_records_preserves n s Hsome)
    as (ret' & s'' & Hrun' & Hd & _ & Hdicts & _ & _).
  rewrite Hrun in Hrun'. simplify_eq.
  assert (Hne : fresh (dom (lists s)) ≠ data_array s).
  { intros Heq. rewrite <- Heq, fresh_list_None in Hsome. by destruct Hsome. }
  exists (fresh (dom (lists s))), s''. split; [done|].
  split; [apply fresh_list_None|]. split; [done|].
  apply (list_store_preserves _ _ _ s); [done|done| |done].
  rewrite Hl. by apply lookup_insert_ne.
Qed.

Lemma get_random_records_fresh_witness :
  ∃ ret s',
    get_random_records 1 demo_state = Return (ret, s')
    ∧ lists demo_state !! ret = None
    ∧ ret ≠ data_array demo_state
    ∧ items (mutate ret (SetItems []) s') = items demo_state
    ∧ records (mutate ret (SetItems []) s') = records demo_state.
Proof.
  apply (get_random_records_fresh 1 demo_state []).
  vm_compute. eauto.
Defined.

(** ** Loading, then sampling *)

Section LoadThenSample.

Variable read_excel : string → option string → read_result.

(** X9. After a load whose read succeeds, a sample of [n] records with
    [0 < n < R] reads [n] of the stored records, none of them twice: the
    ids of the sample are pairwise different. *)
Theorem load_then_sample_distinct_ids file_path sheet_name s cols grid n :
  read_excel file_path (selected_sheet sheet_name) = Parsed cols grid →
  (0 < n < Z.of_nat (length (non_empty_rows cols grid)))%Z →
  ∃ ret s' chosen rs,
    get_random_records n (load_excel read_excel file_path sheet_name s)
      = Return (ret, s')
    ∧ lists s' !! ret = Some chosen
    ∧ mapM (λ o, dicts s' !! o) chosen = Some rs
    ∧ Z.of_nat (length rs) = n
    ∧ rs ⊆+ row_objects cols grid
    ∧ NoDup (id <$> rs).
Proof.
  intros Hread Hn.
  destruct (load_excel_parsed read_excel _ _ s _ _ Hread)
    as (Hrs & Hlen & _).
  set (s0 := load_excel read_excel file_path sheet_name s) in *.
  rewrite row_objects_length in Hlen.
  unfold get_random_records.
  rewrite bool_decide_eq_false_2
    by (intros Hnil; rewrite Hnil in Hlen; cbn in Hlen; lia).
  rewrite bool_decide_eq_false_2 by lia.
  rewrite bool_decide_eq_false_2 by lia.
  destruct (sample_spec (items s0) n (rng s0))
    as (chosen & g' & Hrun & Hk & Hsub); [lia|].
  rewrite Hrun. cbn [new_list].
  unfold records in Hrs. apply mapM_Some in Hrs.
  destruct (Forall2_submseteq _ _ _ Hsub _ Hrs) as (rs & HF & Hrsub).
  eexists _, _, chosen, rs. split; [reflexivity|].
  split; [apply lookup_insert_eq|].
  split; [by apply mapM_Some|].
  split; [apply Forall2_length in HF; lia|]. split; [done|].
  eapply submseteq_NoDup; [by apply fmap_submseteq|].
  apply StronglySorted_lt_NoDup, row_objects_sorted.
Qed.

(** X6. When every row of the grid is entirely empty, as when the grid has
    no rows or no columns, a load whose read succeeds leaves an empty
    collection and the count 0, and every call of [get_random_records]
    after it returns an empty list with the warning that no data is
    loaded. *)
Theorem load_excel_all_empty file_path sheet_name s cols grid :
  read_excel file_path (selected_sheet sheet_name) = Parsed cols grid →
  cols = [] ∨ Forall (λ row, ¬ any_notna cols row) grid →
  records (load_excel read_excel file_path sheet_name s) = Some []
  ∧ get_total_records (load_excel read_excel file_path sheet_name s) = 0%Z
  ∧ ∀ n, ∃ ret s',
      get_random_records n (load_excel read_excel file_path sheet_name s)
        = Return (ret, s')
      ∧ lists s' !! ret = Some []
      ∧ stdout s'
        = stdout (load_excel read_excel file_path sheet_name s)
            ++ [WarnNoData].
Proof.
  intros Hread Hempty.
  assert (Hall : Forall (λ row, ¬ any_notna cols row) grid).
  { destruct Hempty as [->|?]; [|done]. apply Forall_forall.
    intros row _ Hrow. exact Hrow. }
  assert (Hnone : non_empty_rows cols grid = []).
  { unfold non_empty_rows. clear -Hall.
    induction Hall as [|row grid Hrow _ IH]; [done|].
    by rewrite filter_cons_False. }
  destruct (load_excel_parsed read_excel _ _ s _ _ Hread)
    as (Hrs & Hlen & _).
  set (s0 := load_excel read_excel file_path sheet_name s) in *.
  rewrite row_objects_length, Hnone in Hlen. cbn in Hlen.
  apply nil_length_inv in Hlen.
  assert (Hobjs : row_objects cols grid = []).
  { apply nil_length_inv. by rewrite row_objects_length, Hnone. }
  split; [by rewrite Hrs, Hobjs|].
  split; [unfold get_total_records; by rewrite Hlen|].
  intros n. unfold get_random_records.
  rewrite bool_decide_eq_true_2 by done.
  eexists _, _. split; [reflexivity|]. split; [apply lookup_insert_eq|done].
Qed.

(** Every state the calls reach from a new processor is sound. *)
Lemma sound_init g : sound (init g).
Proof.
  split; [apply wf_init|]. exists []. split; [done|].
  split; [constructor|]. split; [constructor|].
  split; [exists ∅; constructor|constructor].
Qed.

Lemma sound_load_excel file_path sheet_name s :
  sound s → sound (load_excel read_excel file_path sheet_name s).
Proof.
  intros [Hwf Hs]. split; [by apply wf_load_excel|].
  destruct (read_excel file_path (selected_sheet sheet_name))
    as [cols grid| |e] eqn:Hread.
  - destruct (load_excel_parsed read_excel _ _ s _ _ Hread) as (Hrs & _).
    exists (row_objects cols grid). split; [done|].
    destruct (row_objects_sorted cols grid) as [Hsorted Hpos].
    split; [done|]. split; [done|].
    split; [eexists; apply row_objects_dom|].
    apply row_objects_plain.
  - unfold load_excel. by rewrite Hread.
  - unfold load_excel. by rewrite Hread.
Qed.

Lemma sound_step s c : sound s → sound (step read_excel s c).
Proof.
  intros Hs. destruct c as [file_path sheet_name|n]; cbn.
  - by apply sound_load_excel.
  - destruct Hs as [Hwf Hs].
    destruct (get_random_records_preserves n s (proj1 Hwf))
      as (ret & s' & Hrun & _ & _ & _ & Hrs & _).
    rewrite Hrun. split; [by eapply wf_get_random_records|].
    by rewrite Hrs.
Qed.

(** X10. Whatever calls of [load_excel] and [get_random_records] are made
    on a new processor, with files that are read or not, the collection is
    a list of row objects that are all different, their ids go up strictly
    and are at least 1, their payloads have the same keys, and no value of
    a payload is a numpy scalar or a missing marker other than None. *)
Theorem run_sound g calls : sound (run read_excel g calls).
Proof.
  unfold run. induction calls as [|c calls IH] using rev_ind.
  - apply sound_init.
  - rewrite foldl_snoc. by apply sound_step.
Qed.

(** With a reader that hands back no date cell, [json.dumps] encodes every
    payload of every state the calls reach. *)
Lemma printable_step s c :
  dateless read_excel →
  is_Some (lists s !! data_array s) →
  printable s → printable (step read_excel s c).
Proof.
  intros Hreader Hsome Hs. destruct c as [file_path sheet_name|n]; cbn.
  - destruct (read_excel file_path (selected_sheet sheet_name))
      as [cols grid| |e] eqn:Hread.
    + destruct (load_excel_parsed read_excel _ _ s _ _ Hread) as (Hrs & _).
      exists (row_objects cols grid). split; [done|].
      eapply Forall_impl;
        [apply row_objects_native; by eapply Hreader|].
      intros r. apply native_dumps_ok.
    + unfold load_excel. by rewrite Hread.
    + unfold load_excel. by rewrite Hread.
  - destruct (get_random_records_preserves n s Hsome)
      as (ret & s' & Hrun & _ & _ & _ & Hrs & _).
    rewrite Hrun. unfold printable. by rewrite Hrs.
Qed.

Lemma wf_step s c : wf s → wf (step read_excel s c).
Proof.
  intros Hwf. destruct c as [file_path sheet_name|n]; cbn.
  - by apply wf_load_excel.
  - destruct (get_random_records_preserves n s (proj1 Hwf))
      as (ret & s' & Hrun & _).
    rewrite Hrun. by eapply wf_get_random_records.
Qed.

Lemma wf_run g calls : wf (run read_excel g calls).
Proof.
  unfold run. induction calls as [|c calls IH] using rev_ind.
  - apply wf_init.
  - rewrite foldl_snoc. by apply wf_step.
Qed.

Lemma printable_run g calls :
  dateless read_excel → printable (run read_excel g calls).
Proof.
  intros Hreader. unfold run.
  induction calls as [|c calls IH] using rev_ind.
  - exists []. split; [done|constructor].
  - rewrite foldl_snoc. apply printable_step; [done| |done].
    apply (wf_run g calls).
Qed.

End LoadThenSample.

(** ** Showing records *)

(** When the bound is the number of records from position [i] on, the loop
    prints the records with a rule between two of them. *)
Lemma display_loop_rules s objs rs :
  Forall2 (λ o r, dicts s !! o = Some r) objs rs →
  Forall (λ r, json.dumps_ok (data r) = true) rs →
  ∀ (i : nat) (bound : Z),
    bound = Z.of_nat (i + length objs) →
    display_loop bound i objs s = (shown_records rs, Returned).
Proof.
  induction 1 as [|o r objs rs Ho HF IH]; intros Hok i bound Hbound;
    [done|].
  apply Forall_cons in Hok as [Hr Hok].
  cbn [display_loop]. rewrite Ho, Hr.
  rewrite (IH Hok (S i) bound) by (cbn [length] in Hbound; lia).
  destruct HF as [|o' r' objs rs Ho' HF].
  - rewrite bool_decide_eq_false_2 by (cbn [length] in Hbound; lia). done.
  - rewrite bool_decide_eq_true_2 by (cbn [length] in Hbound; lia). done.
Qed.

(** When the bound is passed, the loop prints the records with no rule. *)
Lemma display_loop_plain s objs rs :
  Forall2 (λ o r, dicts s !! o = Some r) objs rs →
  Forall (λ r, json.dumps_ok (data r) = true) rs →
  ∀ (i : nat) (bound : Z),
    (bound - 1 ≤ Z.of_nat i)%Z →
    display_loop bound i objs s = (shown_plain rs, Returned).
Proof.
  induction 1 as [|o r objs rs Ho HF IH]; intros Hok i bound Hbound;
    [done|].
  apply Forall_cons in Hok as [Hr Hok].
  cbn [display_loop]. rewrite Ho, Hr.
  rewrite (IH Hok (S i) bound) by lia.
  rewrite bool_decide_eq_false_2 by lia. done.
Qed.

(** The loop returns when every item is a row object whose payload
    [json.dumps] encodes. *)
Lemma display_loop_returns s objs rs :
  Forall2 (λ o r, dicts s !! o = Some r) objs rs →
  Forall (λ r, json.dumps_ok (data r) = true) rs →
  ∀ (i : nat) (bound : Z), (display_loop bound i objs s).2 = Returned.
Proof.
  induction 1 as [|o r objs rs Ho HF IH]; intros Hok i bound; [done|].
  apply Forall_cons in Hok as [Hr Hok].
  cbn [display_loop]. rewrite Ho, Hr.
  specialize (IH Hok (S i) bound).
  by destruct (display_loop bound (S i) objs s).
Qed.

(** X11. With a count that is not negative, [display_sample_data] on a
    collection whose payloads [json.dumps] encodes returns after printing
    the header with [min(num_samples, len)], then the first
    [min(num_samples, len)] records in stored order, id and payload, with a
    rule between two records and none after the last; on an empty
    collection it prints the one notice that there is nothing to show. *)
Theorem display_sample_data_first (num_samples : Z) (s : state) rs :
  records s = Some rs →
  Forall (λ r, json.dumps_ok (data r) = true) rs →
  (0 ≤ num_samples)%Z →
  (rs = [] → display_sample_data num_samples s = ([NoDataToShow], Returned))
  ∧ (rs ≠ [] →
     display_sample_data num_samples s
     = (SampleHeader (Z.min num_samples (Z.of_nat (length rs)))
          :: Rule :: shown_records (take (Z.to_nat num_samples) rs),
        Returned)).
Proof.
  intros Hrs Hok Hnum. unfold records in Hrs. apply mapM_Some in Hrs.
  pose proof (Forall2_length _ _ _ Hrs) as Hlen.
  unfold display_sample_data. split.
  - intros ->. destruct (items s); [|done].
    by rewrite bool_decide_eq_true_2.
  - intros Hne.
    rewrite bool_decide_eq_false_2
      by (intros Hnil; rewrite Hnil in Hlen; by destruct rs).
    unfold slice_to. rewrite bool_decide_eq_true_2 by done.
    rewrite (display_loop_rules s _ (take (Z.to_nat num_samples) rs)).
    + by rewrite Hlen.
    + by apply Forall2_take.
    + by apply Forall_take.
    + rewrite length_take. lia.
Qed.

(** X12. With a negative count [display_sample_data], on a collection
    whose payloads [json.dumps] encodes, follows the slice
    [self.data_array[:num_samples]]: the header shows the negative count,
    the records printed are all but the last [-num_samples] (none when the
    collection has no more than that), no rule is printed between them, and
    the call returns. *)
Theorem display_sample_data_negative (num_samples : Z) (s : state) rs :
  records s = Some rs →
  Forall (λ r, json.dumps_ok (data r) = true) rs →
  rs ≠ [] →
  (num_samples < 0)%Z →
  display_sample_data num_samples s
  = (SampleHeader num_samples :: Rule
       :: shown_plain
            (take (Z.to_nat (Z.of_nat (length rs) + num_samples)) rs),
     Returned).
Proof.
  intros Hrs Hok Hne Hnum. unfold records in Hrs. apply mapM_Some in Hrs.
  pose proof (Forall2_length _ _ _ Hrs) as Hlen.
  unfold display_sample_data.
  rewrite bool_decide_eq_false_2
    by (intros Hnil; rewrite Hnil in Hlen; by destruct rs).
  unfold slice_to. rewrite bool_decide_eq_false_2 by lia.
  rewrite (display_loop_plain s _
             (take (Z.to_nat (Z.of_nat (length rs) + num_samples)) rs)).
  - by rewrite Z.min_l by lia.
  - rewrite Hlen. by apply Forall2_take.
  - by apply Forall_take.
  - lia.
Qed.

(** X13. With a reader that hands back no date cell, [display_sample_data]
    returns in every state the calls reach on a new processor, whatever the
    count: every item of the collection is a row object and no payload
    makes [json.dumps] raise. *)
Theorem display_sample_data_returns
    (read_excel : string → option string → read_result)
    (g : random.RandomState) (calls : list call) (num_samples : Z) :
  dateless read_excel →
  (display_sample_data num_samples (run read_excel g calls)).2 = Returned.
Proof.
  intros Hreader.
  destruct (printable_run read_excel g calls Hreader) as (rs & Hrs & Hok).
  set (s := run read_excel g calls) in *.
  unfold records in Hrs. apply mapM_Some in Hrs.
  unfold display_sample_data. case_bool_decide; [done|].
  set (bound := Z.min _ _).
  assert (Hloop : ∀ k, (display_loop bound 0 (take k (items s)) s).2
                       = Returned).
  { intros k. apply (display_loop_returns s _ (take k rs));
      [by apply Forall2_take|by apply Forall_take]. }
  unfold slice_to. case_bool_decide.
  - specialize (Hloop (Z.to_nat num_samples)).
    by destruct (display_loop _ _ _ _).
  - specialize (Hloop (Z.to_nat (Z.of_nat (length (items s)) + num_samples))).
    by destruct (display_loop _ _ _ _).
Qed.

(** Up to a payload that [json.dumps] does not encode the loop prints every
    record with the rule after it, then the id of the record of this
    payload, and an exception leaves it. *)
Lemma display_loop_raises s rs1 : ∀ objs r rs2 (i : nat) (bound : Z),
  Forall2 (λ o r, dicts s !! o = Some r) objs (rs1 ++ r :: rs2) →
  Forall (λ r, json.dumps_ok (data r) = true) rs1 →
  json.dumps_ok (data r) = false →
  (Z.of_nat (i + length rs1) < bound)%Z →
  display_loop bound i objs s
  = ((rs1 ≫= λ r, [ShowId (id r); ShowData (data r); Separator])
       ++ [ShowId (id r)], Raised).
Proof.
  induction rs1 as [|r1 rs1 IH]; intros objs r rs2 i bound HF Hok Hr Hbound.
  - cbn in HF. apply Forall2_cons_inv_r in HF as (o & objs' & Ho & _ & ->).
    cbn [display_loop]. by rewrite Ho, Hr.
  - cbn [app] in HF.
    apply Forall2_cons_inv_r in HF as (o & objs' & Ho & HF & ->).
    apply Forall_cons in Hok as [Hr1 Hok].
    cbn [display_loop]. rewrite Ho, Hr1.
    rewrite (IH objs' r rs2 (S i) bound HF Hok Hr)
      by (cbn [length] in Hbound; lia).
    rewrite bool_decide_eq_true_2 by (cbn [length] in Hbound; lia).
    done.
Qed.

(** X14. When the payload of a record among the first [num_samples] cannot
    be encoded by [json.dumps] (it holds a date object, say),
    [display_sample_data] prints the header, the records before this one,
    each followed by the rule, and the id line of this record, and then the
    exception of [json.dumps] leaves it: nothing is caught. *)
Theorem display_sample_data_raises (num_samples : Z) (s : state) rs1 r rs2 :
  records s = Some (rs1 ++ r :: rs2) →
  Forall (λ r, json.dumps_ok (data r) = true) rs1 →
  json.dumps_ok (data r) = false →
  (Z.of_nat (length rs1) < num_samples)%Z →
  display_sample_data num_samples s
  = (SampleHeader
       (Z.min num_samples (Z.of_nat (length (rs1 ++ r :: rs2))))
       :: Rule
       :: (rs1 ≫= λ r, [ShowId (id r); ShowData (data r); Separator])
       ++ [ShowId (id r)],
     Raised).
Proof.
  intros Hrs Hok Hr Hnum. unfold records in Hrs. apply mapM_Some in Hrs.
  pose proof (Forall2_length _ _ _ Hrs) as Hlen.
  rewrite length_app in Hlen. cbn [length] in Hlen.
  unfold display_sample_data.
  rewrite bool_decide_eq_false_2
    by (intros Hnil; rewrite Hnil in Hlen; cbn in Hlen; lia).
  unfold slice_to. rewrite bool_decide_eq_true_2 by lia.
  assert (Htake : take (Z.to_nat num_samples) (rs1 ++ r :: rs2)
                  = rs1 ++ r :: take (Z.to_nat num_samples - S (length rs1))
                                  rs2).
  { rewrite take_app_ge by lia.
    replace (Z.to_nat num_samples - length rs1)
      with (S (Z.to_nat num_samples - S (length rs1))) by lia.
    done. }
  apply (Forall2_take _ _ _ (Z.to_nat num_samples)) in Hrs.
  rewrite Htake in Hrs.
  rewrite (display_loop_raises s rs1 _ r _ 0 _ Hrs Hok Hr).
  - rewrite length_app. cbn [length]. by rewrite Hlen.
  - lia.
Qed.

(** ** The small run, again *)

Lemma load_excel_counts_rows_witness :
  get_total_records demo_state
    = Z.of_nat (length (non_empty_rows demo_columns demo_grid))
  ∧ stdout demo_state
    = stdout (init demo_generator)
        ++ [LoadedOk (length (non_empty_rows demo_columns demo_grid));
            ColumnsFound demo_columns].
Proof.
  apply (load_excel_counts_rows demo_reader "datos.xlsx" None
           (init demo_generator) demo_columns demo_grid).
  reflexivity.
Defined.

Lemma load_excel_ids_contiguous_witness :
  record_ids
    (load_excel
       (λ _ _, Parsed demo_columns
                 ([[PyStr "Ana"; PyFloat 30%float]]
                    ++ [[PyFloat PrimFloat.nan; PyFloat PrimFloat.nan]]))
       "datos.xlsx" None (init demo_generator))
  = Some [1%Z].
Proof.
  apply (load_excel_ids_contiguous
           (λ _ _, Parsed demo_columns
                     ([[PyStr "Ana"; PyFloat 30%float]]
                        ++ [[PyFloat PrimFloat.nan; PyFloat PrimFloat.nan]]))
           "datos.xlsx" None (init demo_generator) demo_columns
           [[PyStr "Ana"; PyFloat 30%float]]
           [[PyFloat PrimFloat.nan; PyFloat PrimFloat.nan]]).
  - reflexivity.
  - repeat constructor.
  - constructor; [|constructor]. vm_compute. intros H. exact H.
Defined.

Lemma load_excel_replaces_witness :
  records (load_excel demo_reader "datos.xlsx" None demo_state)
  = records demo_state.
Proof.
  apply (load_excel_replaces demo_reader "datos.xlsx" None
           (init demo_generator) demo_columns demo_grid).
  reflexivity.
Defined.

Lemma load_excel_keeps_old_lists_witness :
  lists (load_excel demo_reader "datos.xlsx" None demo_state)
    !! data_array demo_state = Some (items demo_state)
  ∧ mapM (λ o, dicts (load_excel demo_reader "datos.xlsx" None demo_state)
                 !! o) (items demo_state)
    = Some (row_objects demo_columns demo_grid).
Proof.
  apply (load_excel_keeps_old_lists demo_reader "datos.xlsx" None demo_state
           (data_array demo_state) (items demo_state)
           (row_objects demo_columns demo_grid)).
  - reflexivity.
  - reflexivity.
Defined.


Lemma load_then_sample_distinct_ids_witness :
  ∃ ret s' chosen rs,
    get_random_records 3 (long_state (replay [1; 2; 2; 11]))
      = Return (ret, s')
    ∧ lists s' !! ret = Some chosen
    ∧ mapM (λ o, dicts s' !! o) chosen = Some rs
    ∧ Z.of_nat (length rs) = 3%Z
    ∧ rs ⊆+ row_objects [LStr "n"] long_grid
    ∧ NoDup (id <$> rs).
Proof.
  apply (load_then_sample_distinct_ids
           (λ _ _, Parsed [LStr "n"] long_grid) "largo.xlsx" None
           (init (replay [1; 2; 2; 11])) [LStr "n"] long_grid 3).
  - reflexivity.
  - vm_compute. split; reflexivity.
Defined.

Lemma load_excel_all_empty_witness :
  get_total_records
    (load_excel (λ _ _, Parsed [] [[PyStr "Ana"]]) "datos.xlsx" None
       (init demo_generator)) = 0%Z.
Proof.
  apply (load_excel_all_empty (λ _ _, Parsed [] [[PyStr "Ana"]])
           "datos.xlsx" None (init demo_generator) [] [[PyStr "Ana"]]).
  - reflexivity.
  - left. reflexivity.
Defined.

Lemma display_sample_data_first_witness :
  display_sample_data 1 demo_state
  = (SampleHeader (Z.min 1 (Z.of_nat (length (row_objects demo_columns
                                              demo_grid))))
       :: Rule :: shown_records (take (Z.to_nat 1)
                                   (row_objects demo_columns demo_grid)),
     Returned).
Proof.
  apply (display_sample_data_first 1 demo_state
           (row_objects demo_columns demo_grid)).
  - reflexivity.
  - repeat constructor.
  - lia.
  - discriminate.
Defined.

Lemma display_sample_data_negative_witness :
  display_sample_data (-1) demo_state
  = (SampleHeader (-1) :: Rule
       :: shown_plain
            (take (Z.to_nat (Z.of_nat (length (row_objects demo_columns
                                                 demo_grid)) + -1))
               (row_objects demo_columns demo_grid)),
     Returned).
Proof.
  apply (display_sample_data_negative (-1) demo_state
           (row_objects demo_columns demo_grid)).
  - reflexivity.
  - repeat constructor.
  - discriminate.
  - lia.
Defined.

Lemma demo_reader_dateless : dateless demo_reader.
Proof.
  intros file_path sheet cols grid Hread. unfold demo_reader in Hread.
  case_bool_decide; [|done]. simplify_eq. repeat constructor.
Qed.

Lemma display_sample_data_returns_witness :
  (display_sample_data 3
     (run demo_reader demo_generator
        [CallLoadExcel "datos.xlsx" None; CallGetRandomRecords 1;
         CallLoadExcel "missing.xlsx" None])).2 = Returned.
Proof.
  apply (display_sample_data_returns demo_reader demo_generator
           [CallLoadExcel "datos.xlsx" None; CallGetRandomRecords 1;
            CallLoadExcel "missing.xlsx" None] 3).
  exact demo_reader_dateless.
Defined.

(** A sheet with a date in its second row: the second record cannot be
    shown. *)
Lemma display_sample_data_raises_witness :
  display_sample_data 3
    (load_excel
       (λ _ _, Parsed [LStr "day"]
                 [[PyStr "lunes"]; [PyDatetime "2024-01-02 00:00:00"]])
       "fechas.xlsx" None (init demo_generator))
  = (SampleHeader
       (Z.min 3
          (Z.of_nat
             (length
                ([make_row_object [LStr "day"] 0 [PyStr "lunes"]]
                   ++ make_row_object [LStr "day"] 1
                        [PyDatetime "2024-01-02 00:00:00"] :: []))))
       :: Rule
       :: ([make_row_object [LStr "day"] 0 [PyStr "lunes"]]
             ≫= λ r, [ShowId (id r); ShowData (data r); Separator])
       ++ [ShowId
             (id (make_row_object [LStr "day"] 1
                    [PyDatetime "2024-01-02 00:00:00"]))],
     Raised).
Proof.
  apply (display_sample_data_raises 3 _
           [make_row_object [LStr "day"] 0 [PyStr "lunes"]]
           (make_row_object [LStr "day"] 1
              [PyDatetime "2024-01-02 00:00:00"]) []).
  - reflexivity.
  - repeat constructor.
  - reflexivity.
  - reflexivity.
Defined.
